(** * Component registry, work contexts and component builder

    A shallow embedding of [component/core.py]: the global registry of
    components and its [lookup], the [WorkContext] that is propagated to
    the components, the resolution methods of [AbstractComponent]
    ([component_by_name], [component], [many_components]) and the class
    builder [_build_component].

    Python objects are modelled as follows.
    - [None] for an optional string is [option string]; an attribute that
      may hold a string or a list of strings is a small inductive type.
    - An [OrderedDict] is an association list in insertion order.
    - Odoo's [OrderedSet] and [LastOrderedSet] are duplicate-free lists.
    - A [WorkContext] instance is its attribute dictionary, stored in a
      heap of objects so that "the same context" and "a new context" are
      different things.
    - An exception is the left injection of a sum type. *)

From stdpp Require Import base strings list gmap fin_maps.

Open Scope string_scope.
Open Scope list_scope.

(** ** Python values and truthiness *)

Module Py.

(** The values the resolution of a component name goes through:
    [cls._name or (len(parents) == 1 and parents[0])] evaluates to a
    string, to [None] or to [False]. *)
Inductive pyval :=
| PNone
| PBool (b : bool)
| PStr (s : string).

Definition truthy (v : pyval) : bool :=
  match v with
  | PNone => false
  | PBool b => b
  | PStr s => negb (bool_decide (s = ""))
  end.

(** [a or b]: [b] is only evaluated when [a] is falsy. *)
Definition py_or (a : pyval) (b : unit → pyval) : pyval :=
  if truthy a then a else b tt.

(** [a and b]: [b] is only evaluated when [a] is truthy. *)
Definition py_and (a : pyval) (b : unit → pyval) : pyval :=
  if truthy a then b tt else a.

Definition of_opt (o : option string) : pyval :=
  match o with
  | Some s => PStr s
  | None => PNone
  end.

(** [a or b] for an optional string [a] and a string [b]. *)
Definition str_or (a : option string) (b : string) : string :=
  match a with
  | Some s => if bool_decide (s = "") then b else s
  | None => b
  end.

(** [x in l] where [x] may be [None] and [l] is a list of strings. *)
Definition py_in (x : option string) (l : list string) : Prop :=
  match x with
  | Some s => s ∈ l
  | None => False
  end.

#[global] Instance py_in_dec x l : Decision (py_in x l).
Proof. destruct x; simpl; apply _. Defined.

End Py.

(** ** Ordered containers *)

Module OrderedDict.

Section Defs.
Context {V : Type}.

Fixpoint get (d : list (string * V)) (k : string) : option V :=
  match d with
  | [] => None
  | (k', v) :: d' => if decide (k' = k) then Some v else get d' k
  end.

Definition contains (d : list (string * V)) (k : string) : bool :=
  match get d k with
  | Some _ => true
  | None => false
  end.

(** [d[k] = v]: an existing key keeps its position, a new key goes
    last. *)
Fixpoint setitem (d : list (string * V)) (k : string) (v : V)
  : list (string * V) :=
  match d with
  | [] => [(k, v)]
  | (k', v') :: d' =>
      if decide (k' = k) then (k', v) :: d'
      else (k', v') :: setitem d' k v
  end.

Definition itervalues (d : list (string * V)) : list V := d.*2.

Definition keys (d : list (string * V)) : list string := d.*1.
End Defs.

End OrderedDict.

(** [odoo.tools.OrderedSet] and [odoo.tools.LastOrderedSet]: sets that
    remember the first, respectively the last, insertion of an element. *)
Module OrderedSet.

Section Defs.
Context {A : Type} `{EqDecision A}.

Definition add (s : list A) (x : A) : list A :=
  if decide (x ∈ s) then s else s ++ [x].

Definition discard (s : list A) (x : A) : list A :=
  filter (λ y, y ≠ x) s.
End Defs.

End OrderedSet.

Module LastOrderedSet.

Section Defs.
Context {A : Type} `{EqDecision A}.

(** [OrderedSet.discard(self, elem); OrderedSet.add(self, elem)] *)
Definition add (s : list A) (x : A) : list A :=
  OrderedSet.add (OrderedSet.discard s x) x.

(** [LastOrderedSet(elems)] *)
Definition of_list (l : list A) : list A := foldl add [] l.
End Defs.

End LastOrderedSet.

(** ** Component classes as the registry sees them *)

(** [_apply_on]: [None], one model name, or a list of model names. *)
Inductive apply_on_t :=
| ApplyNone
| ApplyStr (s : string)
| ApplyList (l : list string).

(** The class attributes that the lookups read on a component class of the
    registry.  In Python they are resolved along the bases of the class;
    here they are the readers of the type of component classes. *)
Class ComponentAttrs (C : Type) := {
  _collection : C → option string;
  _apply_on : C → apply_on_t;
  _usage : C → option string;
  _abstract : C → bool;
}.

(** A component class given by the value of each of these attributes. *)
Record ComponentClass := {
  cc_name : string;
  cc_collection : option string;
  cc_apply_on : apply_on_t;
  cc_usage : option string;
  cc_abstract : bool;
}.

#[global] Instance ComponentClass_attrs : ComponentAttrs ComponentClass := {
  _collection := cc_collection;
  _apply_on := cc_apply_on;
  _usage := cc_usage;
  _abstract := cc_abstract;
}.

(** [MetaComponent.apply_on_models] *)
Definition apply_on_models `{ComponentAttrs C} (self : C)
  : option (list string) :=
  match _apply_on self with
  | ApplyNone => None
  | ApplyStr s => Some [s]
  | ApplyList l => Some l
  end.

(** ** The global registry *)

Module ComponentGlobalRegistry.

Section Lookup.
Context {C : Type} `{ComponentAttrs C}.

Definition in_collection (collection_name : string) (component : C)
  : Prop :=
  (_collection component = Some collection_name
   ∨ _collection component = None)
  ∧ _abstract component = false.

Definition applies_on (model_name : option string) (c : C) : Prop :=
  match apply_on_models c with
  | None => True
  | Some models => Py.py_in model_name models
  end.

#[global] Instance applies_on_dec m c : Decision (applies_on m c).
Proof. unfold applies_on. destruct (apply_on_models c); apply _. Defined.

(** The components of the collection, in the order of the registry:
    [[component for component in self.itervalues()
      if (component._collection == collection_name or
          component._collection is None) and
      not component._abstract]] *)
Definition collection_components (self : list (string * C))
    (collection_name : string) : list C :=
  filter (in_collection collection_name) (OrderedDict.itervalues self).

(** [[component for component in collection_components
      if component._usage == usage]] *)
Definition usage_components (usage : string)
    (collection_components : list C) : list C :=
  filter (λ component, _usage component = Some usage)
         collection_components.

(** [ComponentGlobalRegistry.lookup] *)
Definition lookup (self : list (string * C)) (collection_name : string)
    (usage : option string) (model_name : option string) : list C :=
  let collection_components :=
    collection_components self collection_name in
  let candidates := [] in
  let candidates :=
    match usage with
    | Some usage =>
        let components := usage_components usage collection_components in
        match components with
        | _ :: _ => components
        | [] => candidates
        end
    | None => collection_components
    end in
  filter (applies_on model_name) candidates.

(** The result of [lookup] in the words of its documentation: the
    components of the registry, in its order, that are not abstract,
    that are registered in the collection or in none, that have the
    usage when one is asked for, and that apply on the model or on
    every model. *)
Definition selected (collection_name : string) (usage : option string)
    (model_name : option string) (c : C) : Prop :=
  _abstract c = false
  ∧ (_collection c = Some collection_name ∨ _collection c = None)
  ∧ match usage with
    | Some usage => _usage c = Some usage
    | None => True
    end
  ∧ match apply_on_models c with
    | None => True
    | Some models =>
        match model_name with
        | Some m => m ∈ models
        | None => False
        end
    end.

#[global] Instance selected_dec cn u m c : Decision (selected cn u m c).
Proof.
  unfold selected.
  destruct u, (apply_on_models c), m; apply _.
Defined.

Definition lookup_spec (self : list (string * C))
    (collection_name : string) (usage : option string)
    (model_name : option string) : list C :=
  filter (selected collection_name usage model_name)
         (OrderedDict.itervalues self).
End Lookup.

End ComponentGlobalRegistry.

(** ** Exceptions *)

(** The models named in the hint of [component_by_name]: one model, or
    the whole list ([<one of %r>]). *)
Inductive hint_models :=
| HintModel (m : string)
| HintOneOf (ms : list string).

Inductive exn (C : Type) :=
(** [NoComponentError("No component with name '%s' found.")] *)
| NoComponentError_name (name : string)
(** [NoComponentError("Component with name '%s' can't be used for model
    '%s'. Hint: ...")] *)
| NoComponentError_model (name work_model : string) (hint : hint_models)
(** [NoComponentError("No component found for collection '%s', usage
    '%s', model_name '%s'.")] *)
| NoComponentError_lookup (collection : string) (usage : option string)
    (model_name : string)
(** [SeveralComponentError("Several components found for ... Found: %r")] *)
| SeveralComponentError (collection usage model_name : string)
    (found : list C)
(** a missing attribute, or an attribute that cannot be set *)
| AttributeError (attr : string)
(** a keyword argument that is also given by position *)
| TypeError_multiple_values (keyword : string)
(** [env[model_name]] for a model that the environment does not hold *)
| KeyError_model (model_name : string)
(** a location without an object; no Python program reaches it *)
| SystemError.

Arguments NoComponentError_name {C}.
Arguments NoComponentError_model {C}.
Arguments NoComponentError_lookup {C}.
Arguments SeveralComponentError {C}.
Arguments AttributeError {C}.
Arguments TypeError_multiple_values {C}.
Arguments KeyError_model {C}.
Arguments SystemError {C}.

(** Raising and sequencing: [inl] is a raised exception. *)
#[global] Instance sum_ret {E} : MRet (sum E) := λ A x, inr x.
#[global] Instance sum_bind {E} : MBind (sum E) := λ A B f m,
  match m with
  | inl e => inl e
  | inr x => f x
  end.

(** ** Work contexts *)

Module WorkContext.

(** The host's environment: an identifier and the names of the models
    that it holds.  [env[model_name]] is the model of that name in the
    environment, and raises [KeyError] when the environment holds no
    model of that name. *)
Record Env := { env_id : nat; env_models : list string }.

Record Model := { model_env : Env; model__name : string }.

Definition env_getitem (e : Env) (model_name : string) : option Model :=
  if decide (model_name ∈ env_models e) then
    Some {| model_env := e; model__name := model_name |}
  else None.

(** A collection record: [_name] is the name of its model. *)
Record Collection := { _name : string; env : Env }.

(** A reference to a [ComponentGlobalRegistry]; [all_components] is the
    module-level registry. *)
Definition registry_ref := nat.
Definition all_components : registry_ref := 0.

(** The values held by the attributes of a work context.  [VObject] is
    a reference to any other object the caller propagates. *)
Inductive value :=
| VNone
| VStr (s : string)
| VCollection (c : Collection)
| VModel (m : Model)
| VRegistry (r : registry_ref)
| VList (l : list string)
| VObject (id : nat).

(** An instance is its attribute dictionary; instances live in a heap. *)
Abbreviation object := (gmap string value).
Abbreviation heap := (gmap nat object).

Section Methods.
Context {C : Type}.

Local Abbreviation result A := (exn C + A)%type.

(** [setattr(self, attr_name, value)]: [env] is a property without a
    setter. *)
Definition setattr (self : object) (attr_name : string) (v : value)
  : result object :=
  if decide (attr_name = "env") then inl (AttributeError "env")
  else inr (<[attr_name := v]> self).

(** [getattr(self, attr_name)] *)
Definition getattr (self : object) (attr_name : string) : result value :=
  match self !! attr_name with
  | Some v => inr v
  | None => inl (AttributeError attr_name)
  end.

(** [self._propagate_kwargs.append(attr_name)] *)
Definition _propagate_kwargs_append (self : object) (attr_name : string)
  : result object :=
  v ← getattr self "_propagate_kwargs";
  match v with
  | VList l => inr (<["_propagate_kwargs" := VList (l ++ [attr_name])]> self)
  | _ => inl (AttributeError "append")
  end.

(** The loop of [__init__] over [kwargs.iteritems()]. *)
Fixpoint set_kwargs (self : object) (items : list (string * value))
  : result object :=
  match items with
  | [] => inr self
  | (attr_name, v) :: items =>
      self ← setattr self attr_name v;
      self ← _propagate_kwargs_append self attr_name;
      set_kwargs self items
  end.

(** [WorkContext.__init__]; the dictionary [kwargs] is iterated in
    the order of the map. *)
Definition __init__ (collection : Collection) (model_name : string)
    (components_registry : value) (kwargs : gmap string value)
  : result object :=
  let self : object := ∅ in
  let self := <["collection" := VCollection collection]> self in
  let self := <["model_name" := VStr model_name]> self in
  match env_getitem (env collection) model_name with
  | None => inl (KeyError_model model_name)
  | Some model =>
      let self := <["model" := VModel model]> self in
      let self :=
        match components_registry with
        | VNone => <["_components_registry" := VRegistry all_components]> self
        | _ => <["_components_registry" := components_registry]> self
        end in
      let self :=
        <["_propagate_kwargs" := VList ["_components_registry"]]> self in
      set_kwargs self (map_to_list kwargs)
  end.

(** The call [WorkContext(collection, model_name, **kwargs)]: a
    keyword that names a positional parameter is refused, the keyword
    [components_registry] is bound to its parameter. *)
Definition call (collection : Collection) (model_name : string)
    (kwargs : gmap string value) : result object :=
  if decide (is_Some (kwargs !! "self")) then
    inl (TypeError_multiple_values "self")
  else if decide (is_Some (kwargs !! "collection")) then
    inl (TypeError_multiple_values "collection")
  else if decide (is_Some (kwargs !! "model_name")) then
    inl (TypeError_multiple_values "model_name")
  else
    __init__ collection model_name
      (default VNone (kwargs !! "components_registry"))
      (delete "components_registry" kwargs).

(** Allocation of a new instance. *)
Definition alloc (h : heap) (o : object) : nat * heap :=
  let l := fresh (dom h) in (l, <[l := o]> h).

Definition deref (h : heap) (l : nat) : result object :=
  match h !! l with
  | Some o => inr o
  | None => inl SystemError
  end.

(** Typed reads of the attributes the components use. *)
Definition get_collection (self : object) : result Collection :=
  v ← getattr self "collection";
  match v with
  | VCollection c => inr c
  | _ => inl (AttributeError "env")
  end.

Definition get_model_name (self : object) : result string :=
  v ← getattr self "model_name";
  match v with
  | VStr s => inr s
  | _ => inl (AttributeError "model_name")
  end.

Definition get_components_registry (self : object) : result registry_ref :=
  v ← getattr self "_components_registry";
  match v with
  | VRegistry r => inr r
  | _ => inl (AttributeError "get")
  end.

Definition get_propagate_kwargs (self : object) : result (list string) :=
  v ← getattr self "_propagate_kwargs";
  match v with
  | VList l => inr l
  | _ => inl (AttributeError "__iter__")
  end.

(** [{attr_name: getattr(self, attr_name) for attr_name in names}] *)
Fixpoint kwargs_of (self : object) (names : list string)
    (acc : gmap string value) : result (gmap string value) :=
  match names with
  | [] => inr acc
  | attr_name :: names =>
      v ← getattr self attr_name;
      kwargs_of self names (<[attr_name := v]> acc)
  end.

(** [WorkContext.work_on]: returns the location of the new context
    and the heap that holds it.  [self.__class__] is [WorkContext]. *)
Definition work_on (h : heap) (self : nat) (model_name : string)
  : result (nat * heap) :=
  o ← deref h self;
  names ← get_propagate_kwargs o;
  kwargs ← kwargs_of o names ∅;
  collection ← get_collection o;
  new ← call collection model_name kwargs;
  inr (alloc h new).
End Methods.

(** Names that cannot be the name of a propagated keyword argument:
    the parameters of [__init__], the property [env], and the private
    list of the propagated names itself. *)
Definition reserved : list string :=
  ["self"; "collection"; "model_name"; "components_registry"; "env";
   "_propagate_kwargs"].

(** The shape of the instances that [__init__] makes: the collection,
    the model name and the registry are there, and
    [_propagate_kwargs] lists [_components_registry] and names of
    attributes that are set and not reserved. *)
Definition is_work_context (o : object) : bool :=
  match o !! "collection", o !! "model_name",
        o !! "_components_registry", o !! "_propagate_kwargs" with
  | Some (VCollection _), Some (VStr _), Some (VRegistry _),
    Some (VList names) =>
      bool_decide ("_components_registry" ∈ names)
      && forallb (λ a, bool_decide (is_Some (o !! a))
                       && bool_decide (a ∉ reserved)) names
  | _, _, _, _ => false
  end.

End WorkContext.

(** ** Resolution of components *)

Module AbstractComponent.

Import WorkContext.

(** A component instance: [component_class(work_context)] binds the
    class to the work context at [work]. *)
Record Instance (C : Type) := { cls : C; work : nat }.
Arguments cls {C}.
Arguments work {C}.

(** The [model_name] argument: absent, a name, or a model (an instance
    of [models.BaseModel]) that stands for its [_name]. *)
Inductive model_arg :=
| ArgNone
| ArgStr (s : string)
| ArgModel (m : Model).

(** [if isinstance(model_name, models.BaseModel):
       model_name = model_name._name] *)
Definition normalize (model_name : model_arg) : option string :=
  match model_name with
  | ArgNone => None
  | ArgStr s => Some s
  | ArgModel m => Some (model__name m)
  end.

Section Methods.
Context {C : Type} `{ComponentAttrs C}.

(** What each registry reference holds. *)
Variable registries : registry_ref → list (string * C).

Local Abbreviation result A := (exn C + A)%type.

(** [model_name or self.work.model_name] *)
Definition or_work_model_name (model_name : option string) (w : object)
  : result string :=
  match model_name with
  | Some s => if bool_decide (s = "") then get_model_name w else inr s
  | None => get_model_name w
  end.

(** [AbstractComponent._component_class_by_name] *)
Definition _component_class_by_name (h : heap) (self : Instance C)
    (name : string) : result C :=
  w ← deref h (work self);
  components_registry ← get_components_registry w;
  match OrderedDict.get (registries components_registry) name with
  | Some component_class => inr component_class
  | None => inl (NoComponentError_name name)
  end.

(** The hint of [component_by_name]. *)
Definition hint_of (models : list string) : hint_models :=
  match models with
  | [m] => HintModel m
  | _ => HintOneOf models
  end.

(** [component_class.apply_on_models and
     work_model not in component_class.apply_on_models] *)
Definition not_for_model (component_class : C) (work_model : string)
  : option (list string) :=
  match apply_on_models component_class with
  | Some (m :: ms) =>
      if decide (work_model ∈ m :: ms) then None else Some (m :: ms)
  | _ => None
  end.

(** [AbstractComponent.component_by_name] *)
Definition component_by_name (h : heap) (self : Instance C)
    (name : string) (model_name : model_arg)
  : result (Instance C * heap) :=
  let model_name := normalize model_name in
  component_class ← _component_class_by_name h self name;
  w ← deref h (work self);
  work_model ← or_work_model_name model_name w;
  match not_for_model component_class work_model with
  | Some models =>
      inl (NoComponentError_model name work_model (hint_of models))
  | None =>
      current ← get_model_name w;
      if decide (work_model = current) then
        inr ({| cls := component_class; work := work self |}, h)
      else
        match model_name with
        | Some model_name =>
            '(work_context, h) ← work_on h (work self) model_name;
            inr ({| cls := component_class; work := work_context |}, h)
        | None =>
            (* not reached: without [model_name], [work_model] is the
               current model *)
            inl SystemError
        end
  end.

(** [AbstractComponent._lookup_components] *)
Definition _lookup_components (w : object) (usage : option string)
    (model_name : option string) : result (list C) :=
  components_registry ← get_components_registry w;
  collection ← get_collection w;
  inr (ComponentGlobalRegistry.lookup (registries components_registry)
         (_name collection) usage model_name).

(** [AbstractComponent.component] *)
Definition component (h : heap) (self : Instance C)
    (usage : option string) (model_name : model_arg)
  : result (Instance C * heap) :=
  let model_name := normalize model_name in
  w ← deref h (work self);
  model_name ← or_work_model_name model_name w;
  component_classes ← _lookup_components w usage (Some model_name);
  collection ← get_collection w;
  match component_classes with
  | [] =>
      inl (NoComponentError_lookup (_name collection) usage model_name)
  | component_class :: others =>
      if decide (1 < length component_classes) then
        inl (SeveralComponentError (_name collection)
               (default "" usage) model_name component_classes)
      else
        current ← get_model_name w;
        if decide (model_name = current) then
          inr ({| cls := component_class; work := work self |}, h)
        else
          '(work_context, h) ← work_on h (work self) model_name;
          inr ({| cls := component_class; work := work_context |}, h)
  end.

(** [AbstractComponent.many_components] *)
Definition many_components (h : heap) (self : Instance C)
    (usage : option string) (model_name : model_arg)
  : result (list (Instance C) * heap) :=
  let model_name := normalize model_name in
  w ← deref h (work self);
  model_name ← or_work_model_name model_name w;
  component_classes ← _lookup_components w usage (Some model_name);
  current ← get_model_name w;
  if decide (model_name = current) then
    inr (map (λ comp, {| cls := comp; work := work self |})
             component_classes, h)
  else
    '(work_context, h) ← work_on h (work self) model_name;
    inr (map (λ comp, {| cls := comp; work := work_context |})
             component_classes, h).
End Methods.

End AbstractComponent.

(** ** The builder of component classes *)

Module Builder.

(** [_inherit]: [None], one name, or a list of names. *)
Inductive inherit_t :=
| InheritNone
| InheritStr (s : string)
| InheritList (l : list string).

(** A class written by a module author, as the builder reads it: its
    identity as a Python object, its [_name] and its [_inherit]. *)
Record Declaration := {
  cls_id : nat;
  _name : option string;
  _inherit : inherit_t;
}.

(** A class that can stand among the bases of a component class: the
    class [AbstractComponent], a declaration, or the component class
    that the registry holds under a name. *)
Inductive class_ref :=
| AbstractComponent
| Declared (id : nat)
| Composed (name : string).

#[global] Instance class_ref_eq_dec : EqDecision class_ref.
Proof. solve_decision. Defined.

(** A component class of the registry: the class made by
    [type(name, (AbstractComponent,), {...})], whose [__bases__] the
    builder assigns.  A component class is referred to by the name under
    which the registry holds it, so that a change of the class is seen
    through every reference.  The assignment of [__bases__] is a store:
    the check of the class hierarchy that Python runs on it, and the
    resolution of attributes along the bases, are not part of the
    model. *)
Record ComponentClass := {
  __name__ : string;
  __bases__ : list class_ref;
  _inherit_children : list string;
}.

Definition set_bases (c : ComponentClass) (bases : list class_ref)
  : ComponentClass :=
  {| __name__ := __name__ c;
     __bases__ := bases;
     _inherit_children := _inherit_children c |}.

Definition add_child (c : ComponentClass) (name : string) : ComponentClass :=
  {| __name__ := __name__ c;
     __bases__ := __bases__ c;
     _inherit_children := OrderedSet.add (_inherit_children c) name |}.

(** The [TypeError]s of the builder, by their message. *)
Inductive TypeError :=
(** ["Component %r (in class %r) already exists. ..."] *)
| already_exists (name : string)
(** ["Component %r must have a _name"] *)
| must_have_a_name
(** ["Component %r does not exist in registry."] *)
| does_not_exist_in_registry (name : string)
(** ["Component %r inherits from non-existing component %r."] *)
| inherits_from_non_existing (name parent : string).

Abbreviation registry_t := (list (string * ComponentClass)).

(** [parents = cls._inherit], made a list. *)
Definition parents_of (cls : Declaration) : list string :=
  match _inherit cls with
  | InheritStr s => [s]
  | InheritNone => []
  | InheritList l => l
  end.

(** [cls._name in registry] *)
Definition name_in_registry (cls : Declaration) (registry : registry_t)
  : bool :=
  match _name cls with
  | Some n => OrderedDict.contains registry n
  | None => false
  end.

(** [cls._name or (len(parents) == 1 and parents[0])] *)
Definition name_of (cls : Declaration) (parents : list string) : Py.pyval :=
  Py.py_or (Py.of_opt (_name cls))
    (λ _, Py.py_and (Py.PBool (bool_decide (length parents = 1)))
            (λ _, Py.of_opt (parents !! 0))).

(** The loop over the parents: the bases collected so far and the
    registry, whose parent classes record [name] as a child. *)
Fixpoint add_parents (name : string) (parents : list string)
    (bases : list class_ref) (registry : registry_t)
  : (TypeError + list class_ref) * registry_t :=
  match parents with
  | [] => (inr bases, registry)
  | parent :: parents =>
      match OrderedDict.get registry parent with
      | None => (inl (inherits_from_non_existing name parent), registry)
      | Some parent_class =>
          if decide (parent = name) then
            add_parents name parents
              (foldl LastOrderedSet.add bases (__bases__ parent_class))
              registry
          else
            add_parents name parents
              (LastOrderedSet.add bases (Composed parent))
              (OrderedDict.setitem registry parent
                 (add_child parent_class name))
      end
  end.

(** [if name != 'base': parents = list(parents) + ['base']] *)
Definition with_base (name : string) (parents : list string)
  : list string :=
  if decide (name ≠ "base") then parents ++ ["base"] else parents.

(** "create or retrieve the component's class" *)
Definition component_class_for (name : string) (parents : list string)
    (registry : registry_t) : TypeError + ComponentClass :=
  if decide (name ∈ parents) then
    match OrderedDict.get registry name with
    | None => inl (does_not_exist_in_registry name)
    | Some c => inr c
    end
  else
    inr {| __name__ := name;
           __bases__ := [AbstractComponent];
           _inherit_children := [] |}.

(** The rest of [_build_component] once the name is determined: the
    parents with ['base'], the component class, its bases, and its
    registration.  The hook [_complete_component_build] does nothing in
    [AbstractComponent].  Python refuses the assignment of [__bases__]
    with a [TypeError] when the bases have no consistent order; that
    raise is not part of the model, which follows the builds whose bases
    Python accepts. *)
Definition build_named (cls : Declaration) (name : string)
    (parents : list string) (registry : registry_t)
  : (TypeError + string) * registry_t :=
  let parents := with_base name parents in
  match component_class_for name parents registry with
  | inl e => (inl e, registry)
  | inr ComponentClass_ =>
      let bases := LastOrderedSet.of_list [Declared (cls_id cls)] in
      match add_parents name parents bases registry with
      | (inl e, registry) => (inl e, registry)
      | (inr bases, registry) =>
          (inr name,
           OrderedDict.setitem registry name
             (set_bases ComponentClass_ bases))
      end
  end.

(** [AbstractComponent._build_component]: the exception or the name of
    the component class built, and the registry afterwards. *)
Definition _build_component (cls : Declaration) (registry : registry_t)
  : (TypeError + string) * registry_t :=
  let parents := parents_of cls in
  if name_in_registry cls registry then
    (inl (already_exists (default "" (_name cls))), registry)
  else
    match name_of cls parents with
    | Py.PStr name =>
        if negb (Py.truthy (Py.PStr name)) then
          (inl must_have_a_name, registry)
        else
          build_named cls name parents registry
    | _ =>
        (* [None] or [False]: [not name]; the expression is never
           [True] *)
        (inl must_have_a_name, registry)
    end.

(** The name of the component in the words of the documentation: the
    [_name] of the declaration when it has one, else the only parent
    when there is exactly one.  A name is a string that is not empty. *)
Definition declared_name (cls : Declaration) : option string :=
  match _name cls with
  | Some n => if decide (n = "") then None else Some n
  | None => None
  end.

Definition only_parent (cls : Declaration) : option string :=
  match parents_of cls with
  | [p] => if decide (p = "") then None else Some p
  | _ => None
  end.

Definition resolved_name_spec (cls : Declaration) : option string :=
  match declared_name cls with
  | Some n => Some n
  | None => only_parent cls
  end.

(** Every component class of the registry other than ['base'] has the
    component class ['base'] as the last of its bases. *)
Definition ends_in_base (registry : registry_t) : Prop :=
  ∀ name c,
    OrderedDict.get registry name = Some c →
    name ≠ "base" →
    last (__bases__ c) = Some (Composed "base").

(** The registries a build can reach: the empty one, and the one left
    by [_build_component] on a reachable registry, whether it returned
    or raised. *)
Inductive built : registry_t → Prop :=
| built_empty : built []
| built_step cls registry :
    built registry → built (_build_component cls registry).2.

End Builder.

(** ** Examples *)

Module Examples.

(** The components of the documentation of [AbstractComponent]. *)
Definition foo_bar_base : ComponentClass :=
  {| cc_name := "foo.bar.base";
     cc_collection := Some "foo.bar.collection";
     cc_apply_on := ApplyNone;
     cc_usage := None;
     cc_abstract := true |}.

Definition foo : ComponentClass :=
  {| cc_name := "foo";
     cc_collection := Some "foo.bar.collection";
     cc_apply_on := ApplyStr "res.users";
     cc_usage := Some "speak";
     cc_abstract := false |}.

Definition bar : ComponentClass :=
  {| cc_name := "bar";
     cc_collection := Some "foo.bar.collection";
     cc_apply_on := ApplyStr "res.users";
     cc_usage := Some "yell";
     cc_abstract := false |}.

Definition vocalizer : ComponentClass :=
  {| cc_name := "vocalizer";
     cc_collection := Some "foo.bar.collection";
     cc_apply_on := ApplyNone;
     cc_usage := Some "vocalizer";
     cc_abstract := false |}.

(** A second component for the usage [speak] on the same model. *)
Definition foo2 : ComponentClass :=
  {| cc_name := "foo2";
     cc_collection := None;
     cc_apply_on := ApplyList ["res.users"; "res.partner"];
     cc_usage := Some "speak";
     cc_abstract := false |}.

Definition components : list (string * ComponentClass) :=
  [("foo.bar.base", foo_bar_base); ("foo", foo); ("bar", bar);
   ("vocalizer", vocalizer)].

Definition components2 : list (string * ComponentClass) :=
  [("foo.bar.base", foo_bar_base); ("foo", foo); ("foo2", foo2)].

(** Registry 1 holds [components], registry 2 holds [components2], the
    others are empty. *)
Definition registries (r : WorkContext.registry_ref)
  : list (string * ComponentClass) :=
  match r with
  | 1 => components
  | 2 => components2
  | _ => []
  end.

Definition coll : WorkContext.Collection :=
  {| WorkContext._name := "foo.bar.collection";
     WorkContext.env :=
       {| WorkContext.env_id := 7;
          WorkContext.env_models :=
            ["foo.bar.collection"; "res.users"; "res.partner";
             "res.company"] |} |}.

(** [WorkContext(coll, 'res.users', components_registry=r,
                 hello='world')] *)
Definition work_context (r : WorkContext.registry_ref)
  : WorkContext.object :=
  match WorkContext.__init__ (C := ComponentClass) coll "res.users"
          (WorkContext.VRegistry r)
          {[ "hello" := WorkContext.VStr "world" ]} with
  | inr o => o
  | inl _ => ∅
  end.

(** A heap with that context for registry 1 at location 5 and for
    registry 2 at location 6. *)
Definition h0 : WorkContext.heap :=
  {[ 5 := work_context 1; 6 := work_context 2 ]}.

Definition base_instance (l : nat) : AbstractComponent.Instance ComponentClass :=
  {| AbstractComponent.cls := foo_bar_base; AbstractComponent.work := l |}.

(** The declarations of the comment of [_build_component]. *)
Definition Base : Builder.Declaration :=
  {| Builder.cls_id := 0; Builder._name := Some "base";
     Builder._inherit := Builder.InheritNone |}.

Definition A1 : Builder.Declaration :=
  {| Builder.cls_id := 1; Builder._name := Some "a";
     Builder._inherit := Builder.InheritNone |}.

Definition B1 : Builder.Declaration :=
  {| Builder.cls_id := 2; Builder._name := Some "b";
     Builder._inherit := Builder.InheritNone |}.

Definition B2 : Builder.Declaration :=
  {| Builder.cls_id := 3; Builder._name := Some "b";
     Builder._inherit := Builder.InheritList ["a"; "b"] |}.

Definition A2 : Builder.Declaration :=
  {| Builder.cls_id := 4; Builder._name := None;
     Builder._inherit := Builder.InheritStr "a" |}.


(** The registry after the builds of the declarations, in order. *)
Definition build_all (l : list Builder.Declaration) : Builder.registry_t :=
  foldl (λ registry cls, (Builder._build_component cls registry).2) [] l.

(** The registry with ['base'], ['a'] and ['b']. *)
Definition registry_ab : Builder.registry_t := build_all [Base; A1; B1].

(** The component class ['a'] of that registry. *)
Definition composed_a : Builder.ComponentClass :=
  {| Builder.__name__ := "a";
     Builder.__bases__ := [Builder.Declared 1; Builder.Composed "base"];
     Builder._inherit_children := [] |}.

End Examples.

(** ** Names of addons and the registration of declarations *)

Module Addons.

(** The character ['.']. *)
Definition dot : Ascii.ascii :=
  match "." with
  | String c _ => c
  | EmptyString => Ascii.zero
  end.

(** [str.split(sep)] for a separator of one character: the pieces between
    the separators, at least one piece. *)
Fixpoint split (sep : Ascii.ascii) (s : string) : list string :=
  match s with
  | EmptyString => [""]
  | String c s' =>
      if decide (c = sep) then "" :: split sep s'
      else
        match split sep s' with
        | piece :: pieces => String c piece :: pieces
        | [] => [String c ""]
        end
  end.

(** [_get_addon_name] *)
Definition _get_addon_name (full_name : string) : string :=
  let module_parts := split dot full_name in
  if decide (2 < length module_parts
             ∧ take 2 module_parts = ["odoo"; "addons"]) then
    default "" (split dot full_name !! 2)
  else
    default "" (split dot full_name !! 0).

(** A string without the character ['.']. *)
Fixpoint dot_free (s : string) : Prop :=
  match s with
  | EmptyString => True
  | String c s' => c ≠ dot ∧ dot_free s'
  end.

End Addons.

Module MetaComponent.

(** A class whose metaclass is [MetaComponent], as [__init__] reads it:
    its identity, the Python module it is written in, and the attributes
    [_register] and [_module] as the attribute lookup on the class gives
    them ([_module] is [None] when [hasattr(self, '_module')] is false). *)
Record Class_ := {
  ident : nat;
  __module__ : string;
  _register : bool;
  _module : option string;
}.

#[global] Instance Class__eq_dec : EqDecision Class_.
Proof. solve_decision. Defined.

Definition set_register (self : Class_) : Class_ :=
  {| ident := ident self; __module__ := __module__ self;
     _register := true; _module := _module self |}.

(** [if not hasattr(self, '_module'):
       self._module = _get_addon_name(self.__module__)] *)
Definition with_module (self : Class_) : Class_ :=
  match _module self with
  | Some _ => self
  | None =>
      {| ident := ident self; __module__ := __module__ self;
         _register := _register self;
         _module := Some (Addons._get_addon_name (__module__ self)) |}
  end.

(** The addon under which a class is registered. *)
Definition module_of (self : Class_) : string :=
  default "" (_module (with_module self)).

(** [MetaComponent.__init__]: the class afterwards and the dictionary
    [_modules_components], a [defaultdict(list)]. *)
Definition __init__ (self : Class_)
    (_modules_components : gmap string (list Class_))
  : Class_ * gmap string (list Class_) :=
  if negb (_register self) then
    (set_register self, _modules_components)
  else
    let self := with_module self in
    let key := default "" (_module self) in
    (self,
     <[key := default [] (_modules_components !! key) ++ [self]]>
       _modules_components).

(** The classes of a file, declared one after the other. *)
Definition declare_all (classes : list Class_)
    (_modules_components : gmap string (list Class_))
  : gmap string (list Class_) :=
  foldl (λ mc self, (__init__ self mc).2) _modules_components classes.

End MetaComponent.

(** ** The entry points of the work context *)

Module WorkContextEntry.

Import WorkContext.

(** An exception of an entry point: the [KeyError] of
    [self._components_registry['base']], or the exception of the method
    that is called. *)
Inductive entry_exn (C : Type) :=
| KeyError (key : string)
| Raised (e : exn C).
Arguments KeyError {C}.
Arguments Raised {C}.

Section Methods.
Context {C : Type} `{ComponentAttrs C}.
Variable registries : registry_ref → list (string * C).

(** [self._components_registry['base'](self)] *)
Definition base (h : heap) (self : nat)
  : entry_exn C + AbstractComponent.Instance C :=
  match deref (C := C) h self with
  | inl e => inl (Raised e)
  | inr w =>
      match get_components_registry (C := C) w with
      | inl e => inl (Raised e)
      | inr components_registry =>
          match OrderedDict.get (registries components_registry) "base" with
          | None => inl (KeyError "base")
          | Some base_class =>
              inr {| AbstractComponent.cls := base_class;
                     AbstractComponent.work := self |}
          end
      end
  end.

Definition raised {A} (r : exn C + A) : entry_exn C + A :=
  match r with
  | inl e => inl (Raised e)
  | inr x => inr x
  end.

(** [WorkContext.component_by_name] *)
Definition component_by_name (h : heap) (self : nat) (name : string)
    (model_name : AbstractComponent.model_arg)
  : entry_exn C + (AbstractComponent.Instance C * heap) :=
  match base h self with
  | inl e => inl e
  | inr base =>
      raised (AbstractComponent.component_by_name registries h base name
                model_name)
  end.

(** [WorkContext.component] *)
Definition component (h : heap) (self : nat) (usage : option string)
    (model_name : AbstractComponent.model_arg)
  : entry_exn C + (AbstractComponent.Instance C * heap) :=
  match base h self with
  | inl e => inl e
  | inr base =>
      raised (AbstractComponent.component registries h base usage model_name)
  end.

(** [WorkContext.many_components] *)
Definition many_components (h : heap) (self : nat) (usage : option string)
    (model_name : AbstractComponent.model_arg)
  : entry_exn C + (list (AbstractComponent.Instance C) * heap) :=
  match base h self with
  | inl e => inl e
  | inr base =>
      raised (AbstractComponent.many_components registries h base usage
                model_name)
  end.
End Methods.

End WorkContextEntry.

(** ** Component classes up to new children *)

(** What the loop over the parents does to a component class: it keeps
    its name and its bases, and it may add children. *)
Definition grown (c c' : Builder.ComponentClass) : Prop :=
  Builder.__name__ c' = Builder.__name__ c
  ∧ Builder.__bases__ c' = Builder.__bases__ c
  ∧ ∀ x, x ∈ Builder._inherit_children c → x ∈ Builder._inherit_children c'.

(** ** More examples *)

Module MoreExamples.

(** A component that applies on no model at all. *)
Definition nowhere : ComponentClass :=
  {| cc_name := "nowhere";
     cc_collection := None;
     cc_apply_on := ApplyList [];
     cc_usage := Some "speak";
     cc_abstract := false |}.

(** A component shared by all the collections. *)
Definition shared : ComponentClass :=
  {| cc_name := "shared";
     cc_collection := None;
     cc_apply_on := ApplyNone;
     cc_usage := Some "speak";
     cc_abstract := false |}.

Definition components3 : list (string * ComponentClass) :=
  Examples.components ++ [("shared", shared)].

(** A registry without ['base'] and one with it. *)
Definition registries (r : WorkContext.registry_ref)
  : list (string * ComponentClass) :=
  match r with
  | 1 => Examples.components
  | 2 => ("base", Examples.foo_bar_base) :: Examples.components
  | _ => []
  end.

(** A declaration of a new component ['c'] on ['a'] and ['b']. *)
Definition C1 : Builder.Declaration :=
  {| Builder.cls_id := 6; Builder._name := Some "c";
     Builder._inherit := Builder.InheritList ["a"; "b"] |}.

(** A declaration of a new component on ['a'] and on a component that
    does not exist. *)
Definition D1 : Builder.Declaration :=
  {| Builder.cls_id := 7; Builder._name := Some "d";
     Builder._inherit := Builder.InheritList ["a"; "missing"] |}.




End MoreExamples.

(** * Properties of the registry lookup *)

Section LookupFacts.
Context {C : Type} `{ComponentAttrs C}.
Import ComponentGlobalRegistry.

Implicit Types (self : list (string * C)) (c : C).

(** Whether the narrowing by usage is empty or not, the candidates are
    the components that have the usage. *)
Lemma lookup_filters self collection_name usage model_name :
  lookup self collection_name usage model_name =
  filter (applies_on model_name)
    match usage with
    | Some u => usage_components u (collection_components self collection_name)
    | None => collection_components self collection_name
    end.
Proof.
  unfold lookup. destruct usage as [u|]; [|done].
  by destruct (usage_components u _).
Qed.

Lemma applies_on_alt model_name c :
  applies_on model_name c ↔
  match apply_on_models c with
  | None => True
  | Some models =>
      match model_name with
      | Some m => m ∈ models
      | None => False
      end
  end.
Proof. unfold applies_on. by destruct (apply_on_models c), model_name. Qed.

Lemma lookup_is_lookup_spec self collection_name usage model_name :
  lookup self collection_name usage model_name =
  lookup_spec self collection_name usage model_name.
Proof.
  rewrite lookup_filters. unfold lookup_spec.
  destruct usage as [u|]; unfold usage_components, collection_components;
    rewrite !list_filter_filter; apply list_filter_iff; intros c;
    rewrite applies_on_alt; unfold selected, in_collection; tauto.
Qed.

(** C3: [lookup] returns exactly the components of the registry that
    are not abstract, whose collection is the given one or none, that
    have the usage when one is given, and whose [apply_on_models] is
    none or contains the model; they come in the order of the registry.
    The result is a list of component classes computed from the
    registry and the three arguments alone. *)
Theorem lookup_returns_selected_in_order
    self collection_name usage model_name :
  lookup self collection_name usage model_name =
    filter (selected collection_name usage model_name)
           (OrderedDict.itervalues self)
  ∧ lookup self collection_name usage model_name
      `sublist_of` OrderedDict.itervalues self
  ∧ ∀ c, c ∈ lookup self collection_name usage model_name ↔
         c ∈ OrderedDict.itervalues self
         ∧ selected collection_name usage model_name c.
Proof.
  rewrite lookup_is_lookup_spec. unfold lookup_spec.
  split_and!; [done|apply sublist_filter|].
  intros c. rewrite list_elem_of_filter. tauto.
Qed.

(** C1, as the code has it: when no component of the collection has
    the usage asked for, [lookup] returns the empty list. *)
Theorem lookup_unknown_usage_is_empty
    self collection_name usage model_name :
  usage_components usage (collection_components self collection_name) = [] →
  lookup self collection_name (Some usage) model_name = [].
Proof. intros Hnone. rewrite lookup_filters, Hnone. done. Qed.

(** C10: without a model name, [lookup] returns no component that is
    restricted to some models, and what it returns is part of what it
    returns for any model name. *)
Theorem lookup_without_model_name self collection_name usage :
  Forall (λ c, apply_on_models c = None)
         (lookup self collection_name usage None)
  ∧ ∀ model_name,
      lookup self collection_name usage None
        `sublist_of` lookup self collection_name usage model_name.
Proof.
  split.
  - apply Forall_forall. intros c.
    rewrite lookup_filters, list_elem_of_filter, applies_on_alt.
    intros [Hc _]. by destruct (apply_on_models c).
  - intros model_name. rewrite !lookup_filters.
    set (l := match usage with Some _ => _ | None => _ end).
    rewrite <- (list_filter_filter_l (applies_on None)
                  (applies_on model_name) l).
    + apply sublist_filter.
    + intros c. rewrite !applies_on_alt.
      by destruct (apply_on_models c), model_name.
Qed.

End LookupFacts.

(** C1 fails as stated: in the registry of the documentation no component
    has the usage [sing], and the lookup for it is empty although the
    lookup without usage finds [vocalizer]. *)
Lemma lookup_usage_fallback_counterexample :
  ComponentGlobalRegistry.usage_components "sing"
    (ComponentGlobalRegistry.collection_components
       Examples.components "foo.bar.collection") = []
  ∧ ComponentGlobalRegistry.lookup Examples.components
      "foo.bar.collection" (Some "sing") (Some "res.partner") = []
  ∧ ComponentGlobalRegistry.lookup Examples.components
      "foo.bar.collection" None (Some "res.partner") = [Examples.vocalizer]
  ∧ ComponentGlobalRegistry.lookup Examples.components
      "foo.bar.collection" (Some "sing") (Some "res.partner")
    ≠ ComponentGlobalRegistry.lookup Examples.components
        "foo.bar.collection" None (Some "res.partner").
Proof. split_and!; [reflexivity..|discriminate]. Qed.

(** The lookup for the unknown usage [sing]. *)
Lemma lookup_unknown_usage_is_empty_witness :
  ComponentGlobalRegistry.lookup Examples.components
    "foo.bar.collection" (Some "sing") (Some "res.partner") = [].
Proof.
  apply (lookup_unknown_usage_is_empty Examples.components
           "foo.bar.collection" "sing" (Some "res.partner")).
  reflexivity.
Defined.

(** * Properties of the work contexts *)

Section WorkContextFacts.
Context {C : Type}.
Import WorkContext.

Implicit Types (o : object) (h : heap) (names : list string).

(** Membership of a given name in a given list of names. *)
Local Ltac in_reserved :=
  apply (bool_decide_unpack _); vm_compute; exact I.

(** The dictionary of the propagated attributes. *)
Lemma kwargs_of_lookup o names (acc : gmap string value) :
  (∀ a, a ∈ names → is_Some (o !! a)) →
  ∃ kwargs : gmap string value,
    kwargs_of (C := C) o names acc = inr kwargs
    ∧ ∀ a, kwargs !! a = if decide (a ∈ names) then o !! a else acc !! a.
Proof.
  revert acc. induction names as [|b names IH]; intros acc Hset.
  - exists acc. split; [done|]. intros a.
    destruct (decide (a ∈ [])) as [Hin|]; [inv Hin|done].
  - destruct (Hset b) as [v Hv]; [left|].
    cbn [kwargs_of]. unfold getattr. rewrite Hv. cbn [mbind sum_bind].
    destruct (IH (<[b := v]> acc)) as (kwargs & -> & Hk).
    { intros a Ha. apply Hset. by right. }
    exists kwargs. split; [done|]. intros a. rewrite Hk.
    destruct (decide (a ∈ names)) as [Hin|Hnin];
      destruct (decide (a ∈ b :: names)) as [Hin'|Hnin']; try done.
    + exfalso. apply Hnin'. by right.
    + apply elem_of_cons in Hin' as [->|?]; [|done].
      by rewrite lookup_insert_eq.
    + rewrite lookup_insert_ne; [done|].
      intros ->. apply Hnin'. left.
Qed.

(** The loop of [__init__] sets every keyword argument and appends its
    name to [_propagate_kwargs]. *)
Lemma set_kwargs_inserts (self : object) (items : list (string * value)) l0 :
  NoDup items.*1 →
  (∀ k, k ∈ items.*1 → k ≠ "env" ∧ k ≠ "_propagate_kwargs") →
  self !! "_propagate_kwargs" = Some (VList l0) →
  set_kwargs (C := C) self items =
  inr (<["_propagate_kwargs" := VList (l0 ++ items.*1)]>
         (list_to_map items ∪ self)).
Proof.
  revert self l0.
  induction items as [|[k v] items IH]; intros self l0 Hnd Hk Hl0.
  - cbn [set_kwargs]. rewrite fmap_nil, app_nil_r, list_to_map_nil.
    rewrite (left_id_L ∅ (∪)). by rewrite insert_id.
  - rewrite fmap_cons in Hnd, Hk. cbn [fst] in Hnd, Hk.
    apply NoDup_cons in Hnd as [Hnotin Hnd].
    destruct (Hk k) as [Henv Hpk]; [left|].
    cbn [set_kwargs]. unfold setattr.
    rewrite decide_False by done. cbn [mbind sum_bind].
    unfold _propagate_kwargs_append, getattr.
    rewrite lookup_insert_ne, Hl0 by done. cbn [mbind sum_bind].
    rewrite (IH _ (l0 ++ [k])); [|done| |by rewrite lookup_insert_eq].
    2:{ intros k' Hk'. apply Hk. by right. }
    f_equal. rewrite fmap_cons, list_to_map_cons. cbn [fst].
    rewrite <- app_assoc. cbn [app].
    apply map_eq. intros i.
    destruct (decide (i = "_propagate_kwargs")) as [->|Hi].
    { by rewrite !lookup_insert_eq. }
    rewrite !(lookup_insert_ne _ "_propagate_kwargs") by done.
    rewrite !lookup_union.
    rewrite (lookup_insert_ne _ "_propagate_kwargs") by done.
    destruct (decide (i = k)) as [->|Hik].
    + rewrite !lookup_insert_eq.
      rewrite (not_elem_of_list_to_map_1 items k) by done.
      by destruct (self !! k).
    + by rewrite !lookup_insert_ne by done.
Qed.

Lemma is_work_context_inv o :
  is_work_context o = true →
  ∃ c m r names,
    o !! "collection" = Some (VCollection c)
    ∧ o !! "model_name" = Some (VStr m)
    ∧ o !! "_components_registry" = Some (VRegistry r)
    ∧ o !! "_propagate_kwargs" = Some (VList names)
    ∧ "_components_registry" ∈ names
    ∧ ∀ a, a ∈ names → is_Some (o !! a) ∧ a ∉ reserved.
Proof.
  unfold is_work_context. intros Hwf.
  destruct (o !! "collection") as [[| |c| | | |]|]; try done.
  destruct (o !! "model_name") as [[|m| | | | |]|]; try done.
  destruct (o !! "_components_registry") as [[| | | |r| |]|]; try done.
  destruct (o !! "_propagate_kwargs") as [[| | | | |names|]|]; try done.
  apply andb_true_iff in Hwf as [Hcr Hall].
  apply bool_decide_eq_true in Hcr.
  exists c, m, r, names. split_and!; try done.
  intros a Ha.
  rewrite forallb_forall in Hall.
  specialize (Hall a (proj1 (list_elem_of_In _ _) Ha)).
  apply andb_true_iff in Hall as [H1 H2].
  by apply bool_decide_eq_true in H1, H2.
Qed.

Lemma is_work_context_intro o c m r names :
  o !! "collection" = Some (VCollection c) →
  o !! "model_name" = Some (VStr m) →
  o !! "_components_registry" = Some (VRegistry r) →
  o !! "_propagate_kwargs" = Some (VList names) →
  "_components_registry" ∈ names →
  (∀ a, a ∈ names → is_Some (o !! a) ∧ a ∉ reserved) →
  is_work_context o = true.
Proof.
  intros Hc Hm Hr Hn Hcr Hall. unfold is_work_context.
  rewrite Hc, Hm, Hr, Hn.
  apply andb_true_iff. split; [by apply bool_decide_eq_true|].
  apply forallb_forall. intros a Ha.
  destruct (Hall a (proj2 (list_elem_of_In _ _) Ha)).
  apply andb_true_iff. by split; apply bool_decide_eq_true.
Qed.

(** The attributes of a context before the keyword arguments are
    set. *)
Local Abbreviation initial c model_name r :=
  (<["_propagate_kwargs" := VList ["_components_registry"]]>
     (<["_components_registry" := VRegistry r]>
        (<["model" := VModel {| model_env := env c;
                                model__name := model_name |}]>
           (<["model_name" := VStr model_name]>
              (<["collection" := VCollection c]> (∅ : object)))))).

(** [work_on] on a well-formed context comes down to [__init__] with the
    propagated attributes as keyword arguments. *)
Lemma work_on_init h (self : nat) o (model_name : string) c :
  h !! self = Some o →
  is_work_context o = true →
  o !! "collection" = Some (VCollection c) →
  ∃ names (kwargs : gmap string value),
    o !! "_propagate_kwargs" = Some (VList names)
    ∧ (∀ a, a ∈ names → is_Some (o !! a) ∧ a ∉ reserved)
    ∧ "_components_registry" ∈ names
    ∧ (∀ a, kwargs !! a = if decide (a ∈ names) then o !! a else None)
    ∧ work_on (C := C) h self model_name =
      match __init__ (C := C) c model_name VNone kwargs with
      | inl e => inl e
      | inr new => inr (alloc h new)
      end.
Proof.
  intros Hself Hwf Hc.
  destruct (is_work_context_inv o Hwf)
    as (c' & m & r & names & Hc' & Hm & Hr & Hn & Hcr & Hall).
  destruct (kwargs_of_lookup o names ∅) as (kwargs & Hkw & Hk).
  { intros a Ha. by apply Hall. }
  assert (Hres : ∀ a, a ∈ reserved → kwargs !! a = None).
  { intros a Ha. rewrite Hk. destruct (decide (a ∈ names)) as [Hin|]; [|done].
    by destruct (Hall a Hin). }
  exists names, kwargs. split_and!; try done.
  unfold work_on, deref. rewrite Hself. cbn [mbind sum_bind].
  unfold get_propagate_kwargs, getattr. rewrite Hn. cbn [mbind sum_bind].
  rewrite Hkw. cbn [mbind sum_bind].
  unfold get_collection, getattr. rewrite Hc. cbn [mbind sum_bind].
  unfold call.
  rewrite (Hres "self"), (Hres "collection"), (Hres "model_name"),
    (Hres "components_registry") by in_reserved.
  rewrite !decide_False by (by intros [? ?]).
  rewrite delete_id by (apply Hres; in_reserved).
  cbn [default]. by destruct (__init__ c model_name VNone kwargs).
Qed.

(** What [work_on] allocates for a well-formed context and a model that
    the environment holds. *)
Lemma work_on_result h (self : nat) o (model_name : string) c :
  h !! self = Some o →
  is_work_context o = true →
  o !! "collection" = Some (VCollection c) →
  model_name ∈ env_models (env c) →
  ∃ names (kwargs : gmap string value),
    o !! "_propagate_kwargs" = Some (VList names)
    ∧ (∀ a, a ∈ names → is_Some (o !! a) ∧ a ∉ reserved)
    ∧ "_components_registry" ∈ names
    ∧ (∀ a, kwargs !! a = if decide (a ∈ names) then o !! a else None)
    ∧ work_on (C := C) h self model_name =
      inr (alloc h
             (<["_propagate_kwargs" :=
                  VList ("_components_registry" :: (map_to_list kwargs).*1)]>
                (kwargs ∪ initial c model_name all_components))).
Proof.
  intros Hself Hwf Hc Hmodel.
  destruct (work_on_init h self o model_name c Hself Hwf Hc)
    as (names & kwargs & Hn & Hall & Hcr & Hk & Hw).
  exists names, kwargs. split_and!; try done.
  rewrite Hw. unfold __init__, env_getitem.
  rewrite decide_True by done.
  rewrite (set_kwargs_inserts _ _ ["_components_registry"]).
  - by rewrite list_to_map_to_list.
  - apply NoDup_fst_map_to_list.
  - intros k Hin. apply list_elem_of_fmap in Hin as ([k' v] & -> & Hin).
    apply elem_of_map_to_list in Hin. cbn [fst].
    rewrite Hk in Hin. destruct (decide (k' ∈ names)) as [Hk'|]; [|done].
    destruct (Hall k' Hk') as [_ Hnres].
    split; intros ->; apply Hnres; in_reserved.
  - by rewrite lookup_insert_eq.
Qed.

(** [work_on] for a model that the environment does not hold. *)
Lemma work_on_unknown_model h (self : nat) o (model_name : string) c :
  h !! self = Some o →
  is_work_context o = true →
  o !! "collection" = Some (VCollection c) →
  model_name ∉ env_models (env c) →
  work_on (C := C) h self model_name = inl (KeyError_model model_name).
Proof.
  intros Hself Hwf Hc Hmodel.
  destruct (work_on_init h self o model_name c Hself Hwf Hc)
    as (names & kwargs & _ & _ & _ & _ & ->).
  unfold __init__, env_getitem. by rewrite decide_False.
Qed.

(** The context that [work_on] allocates, and the heap it leaves. *)
Lemma work_on_new_context h (self : nat) o (model_name : string) c :
  h !! self = Some o →
  is_work_context o = true →
  o !! "collection" = Some (VCollection c) →
  model_name ∈ env_models (env c) →
  ∃ new o',
    work_on (C := C) h self model_name = inr (new, <[new := o']> h)
    ∧ h !! new = None
    ∧ (∀ l, l ≠ new → <[new := o']> h !! l = h !! l)
    ∧ <[new := o']> h !! self = Some o
    ∧ o' !! "collection" = o !! "collection"
    ∧ o' !! "_components_registry" = o !! "_components_registry"
    ∧ (∀ names a,
         o !! "_propagate_kwargs" = Some (VList names) →
         a ∈ names → o' !! a = o !! a)
    ∧ o' !! "model_name" = Some (VStr model_name)
    ∧ is_work_context o' = true.
Proof.
  intros Hself Hwf Hc Hin.
  destruct (work_on_result h self o model_name c Hself Hwf Hc Hin)
    as (names & kwargs & Hn & Hall & Hcr & Hk & Hw).
  destruct (is_work_context_inv o Hwf)
    as (c' & m & r & names' & Hc' & Hm & Hr & Hn' & _).
  set (keys := (map_to_list kwargs).*1) in *.
  set (o' := <["_propagate_kwargs" := VList ("_components_registry" :: keys)]>
               (kwargs ∪ initial c model_name all_components)) in *.
  assert (Hfresh : h !! fresh (dom h) = None).
  { apply not_elem_of_dom, is_fresh. }
  assert (Hprop : ∀ a, a ∈ names → o' !! a = o !! a).
  { intros a Ha. destruct (Hall a Ha) as [[v Hv] Hnres].
    unfold o'. rewrite lookup_insert_ne.
    - rewrite Hv. apply lookup_union_Some_l.
      by rewrite Hk, decide_True.
    - intros <-. apply Hnres. in_reserved. }
  assert (Hnone : ∀ a, a ∈ reserved → kwargs !! a = None).
  { intros a Ha. rewrite Hk. destruct (decide (a ∈ names)) as [Hin'|]; [|done].
    by destruct (Hall a Hin'). }
  assert (Hcoll : o' !! "collection" = Some (VCollection c)).
  { unfold o'. rewrite lookup_insert_ne by done.
    rewrite lookup_union_r by (apply Hnone; in_reserved).
    done. }
  assert (Hmodel : o' !! "model_name" = Some (VStr model_name)).
  { unfold o'. rewrite lookup_insert_ne by done.
    rewrite lookup_union_r by (apply Hnone; in_reserved).
    done. }
  exists (fresh (dom h)), o'. split_and!.
  - exact Hw.
  - exact Hfresh.
  - intros l Hl. by rewrite lookup_insert_ne.
  - rewrite lookup_insert_ne; [done|]. intros Heq. congruence.
  - by rewrite Hcoll, Hc.
  - by apply Hprop.
  - intros names0 a Hn0 Ha. apply Hprop. congruence.
  - exact Hmodel.
  - apply (is_work_context_intro o' c model_name r
             ("_components_registry" :: keys)); try done.
    + by rewrite Hprop, Hr.
    + unfold o'. by rewrite lookup_insert_eq.
    + left.
    + intros a Ha.
      assert (Ha' : a ∈ names).
      { apply elem_of_cons in Ha as [->|Ha]; [done|].
        apply list_elem_of_fmap in Ha as ([a' v] & -> & Hin').
        apply elem_of_map_to_list in Hin'. cbn [fst].
        rewrite Hk in Hin'. by destruct (decide (a' ∈ names)). }
      destruct (Hall a Ha') as [Hsome Hnres].
      split; [|done]. by rewrite Hprop.
Qed.

(** C9, as the code has it: for a model that the environment of the
    collection holds, [work_on] allocates a new context and leaves every
    object of the heap, the receiver among them, as it was; the new
    context has the collection and the registry of the receiver and
    every attribute that the receiver propagates, with the same values,
    and its model name is the one given.  For a model that the
    environment does not hold, [work_on] raises the [KeyError] of
    [env[model_name]]. *)
Theorem work_on_keeps_attributes
    h (self : nat) o (model_name : string) c :
  h !! self = Some o →
  is_work_context o = true →
  o !! "collection" = Some (VCollection c) →
  (model_name ∈ env_models (env c) →
   ∃ new o',
     work_on (C := C) h self model_name = inr (new, <[new := o']> h)
     ∧ h !! new = None
     ∧ (∀ l, l ≠ new → <[new := o']> h !! l = h !! l)
     ∧ <[new := o']> h !! self = Some o
     ∧ o' !! "collection" = o !! "collection"
     ∧ o' !! "_components_registry" = o !! "_components_registry"
     ∧ (∀ names a,
          o !! "_propagate_kwargs" = Some (VList names) →
          a ∈ names → o' !! a = o !! a)
     ∧ o' !! "model_name" = Some (VStr model_name)
     ∧ is_work_context o' = true)
  ∧ (model_name ∉ env_models (env c) →
     work_on (C := C) h self model_name = inl (KeyError_model model_name)).
Proof.
  intros Hself Hwf Hc. split; intros Hmodel.
  - by apply (work_on_new_context h self o model_name c).
  - by apply (work_on_unknown_model h self o model_name c).
Qed.

End WorkContextFacts.

(** * Properties of the resolution of components *)

Section ResolutionFacts.
Context {C : Type} `{ComponentAttrs C}.
Variable registries : WorkContext.registry_ref → list (string * C).
Import WorkContext AbstractComponent.

Implicit Types (h : heap) (self : Instance C) (w : object).

Lemma or_work_model_name_eq (model_name : option string) w cur :
  w !! "model_name" = Some (VStr cur) →
  or_work_model_name (C := C) model_name w = inr (Py.str_or model_name cur).
Proof.
  intros Hcur. unfold or_work_model_name, Py.str_or, get_model_name, getattr.
  rewrite Hcur. destruct model_name as [s|]; [|done].
  by destruct (bool_decide (s = "")).
Qed.

(** Another model is only worked on when it is asked for by name. *)
Lemma str_or_other (model_name : option string) cur :
  Py.str_or model_name cur ≠ cur →
  model_name = Some (Py.str_or model_name cur).
Proof.
  unfold Py.str_or. destruct model_name as [s|]; [|done].
  by destruct (bool_decide (s = "")).
Qed.

Lemma not_for_model_Some component_class work_model models :
  apply_on_models component_class = Some models →
  models ≠ [] →
  work_model ∉ models →
  not_for_model component_class work_model = Some models.
Proof.
  intros Hm Hne Hnotin. unfold not_for_model. rewrite Hm.
  destruct models as [|m ms]; [done|]. by rewrite decide_False.
Qed.

Lemma not_for_model_None component_class work_model :
  (∀ models, apply_on_models component_class = Some models →
             models = [] ∨ work_model ∈ models) →
  not_for_model component_class work_model = None.
Proof.
  intros Hok. unfold not_for_model.
  destruct (apply_on_models component_class) as [[|m ms]|]; try done.
  destruct (Hok (m :: ms) eq_refl) as [?|Hin]; [done|].
  by rewrite decide_True.
Qed.

(** C6, as the code has it: [component_by_name] raises
    [NoComponentError] when the registry has no component of the name;
    it raises [NoComponentError] with a hint that names the models of the
    component when the component is restricted to models and the model
    asked for (the current one by default) is not one of them; otherwise,
    when the model is the current one, it returns an instance of the
    component of that name on the current work context; when it is
    another one that the environment holds, an instance on a new work
    context for that model; and when the environment does not hold it,
    it raises the [KeyError] of [env[model_name]]. *)
Theorem component_by_name_resolves h self w name model_name coll cur r :
  h !! work self = Some w →
  is_work_context w = true →
  w !! "collection" = Some (VCollection coll) →
  w !! "model_name" = Some (VStr cur) →
  w !! "_components_registry" = Some (VRegistry r) →
  let work_model := Py.str_or (normalize model_name) cur in
  let result := component_by_name registries h self name model_name in
  (OrderedDict.get (registries r) name = None →
   result = inl (NoComponentError_name name))
  ∧ (∀ component_class models,
       OrderedDict.get (registries r) name = Some component_class →
       apply_on_models component_class = Some models →
       models ≠ [] →
       work_model ∉ models →
       result = inl (NoComponentError_model name work_model (hint_of models)))
  ∧ (∀ component_class,
       OrderedDict.get (registries r) name = Some component_class →
       (∀ models, apply_on_models component_class = Some models →
                  models = [] ∨ work_model ∈ models) →
       (work_model = cur →
        result = inr ({| cls := component_class; work := work self |}, h))
       ∧ (work_model ≠ cur →
          work_model ∈ env_models (env coll) →
          ∃ new o',
            result = inr ({| cls := component_class; work := new |},
                          <[new := o']> h)
            ∧ h !! new = None
            ∧ (∀ l, l ≠ new → <[new := o']> h !! l = h !! l)
            ∧ o' !! "model_name" = Some (VStr work_model)
            ∧ o' !! "collection" = w !! "collection"
            ∧ o' !! "_components_registry" = w !! "_components_registry"
            ∧ is_work_context o' = true)
       ∧ (work_model ≠ cur →
          work_model ∉ env_models (env coll) →
          result = inl (KeyError_model work_model))).
Proof.
  intros Hw Hwf Hcoll Hcur Hr work_model result.
  assert (Hclass : _component_class_by_name registries h self name =
                   match OrderedDict.get (registries r) name with
                   | Some component_class => inr component_class
                   | None => inl (NoComponentError_name name)
                   end).
  { unfold _component_class_by_name, deref. rewrite Hw. cbn [mbind sum_bind].
    unfold get_components_registry, getattr. by rewrite Hr. }
  assert (Hres : ∀ component_class,
             OrderedDict.get (registries r) name = Some component_class →
             result =
             match not_for_model component_class work_model with
             | Some models =>
                 inl (NoComponentError_model name work_model (hint_of models))
             | None =>
                 if decide (work_model = cur) then
                   inr ({| cls := component_class; work := work self |}, h)
                 else
                   match normalize model_name with
                   | Some model_name =>
                       '(work_context, h) ← work_on h (work self) model_name;
                       inr ({| cls := component_class;
                               work := work_context |}, h)
                   | None => inl SystemError
                   end
             end).
  { intros component_class Hget. unfold result, component_by_name.
    rewrite Hclass, Hget. cbn [mbind sum_bind].
    unfold deref. rewrite Hw. cbn [mbind sum_bind].
    rewrite (or_work_model_name_eq _ w cur Hcur). cbn [mbind sum_bind].
    fold work_model. destruct (not_for_model _ _); [done|].
    unfold get_model_name, getattr. rewrite Hcur. done. }
  split_and!.
  - intros Hget. unfold result, component_by_name. by rewrite Hclass, Hget.
  - intros component_class models Hget Hm Hne Hnotin.
    rewrite (Hres _ Hget).
    by rewrite (not_for_model_Some _ _ models).
  - intros component_class Hget Hok.
    rewrite (Hres _ Hget), (not_for_model_None _ _ Hok).
    split_and!; intros Hmodel.
    + by rewrite decide_True.
    + intros Hin. rewrite decide_False by done.
      rewrite (str_or_other _ _ Hmodel). fold work_model.
      destruct (work_on_new_context (C := C) h (work self) w work_model coll
                  Hw Hwf Hcoll Hin)
        as (new & o' & -> & Hnew & Hframe & _ & Hc & Hreg & _ & Hmn & Hwf').
      cbn [mbind sum_bind]. exists new, o'. by split_and!.
    + intros Hnotin. rewrite decide_False by done.
      rewrite (str_or_other _ _ Hmodel). fold work_model.
      by rewrite (work_on_unknown_model (C := C) h (work self) w work_model
                    coll Hw Hwf Hcoll Hnotin).
Qed.

(** C2, as the code has it: [component] looks the components up for the
    collection of the work context, the usage and the model asked for
    (the current one by default).  Without a match it raises
    [NoComponentError]; with more than one it raises
    [SeveralComponentError], whatever their order in the registry; with
    exactly one it returns one instance of that component, which is a
    member of the result of the lookup, when the model is the current
    one or one that the environment holds, and it raises the [KeyError]
    of [env[model_name]] when the environment does not hold the model. *)
Theorem component_resolves_one h self w usage model_name coll cur r :
  h !! work self = Some w →
  is_work_context w = true →
  w !! "collection" = Some (VCollection coll) →
  w !! "model_name" = Some (VStr cur) →
  w !! "_components_registry" = Some (VRegistry r) →
  let m := Py.str_or (normalize model_name) cur in
  let found :=
    ComponentGlobalRegistry.lookup (registries r) (_name coll) usage
      (Some m) in
  let result := component registries h self usage model_name in
  (found = [] →
   result = inl (NoComponentError_lookup (_name coll) usage m))
  ∧ (1 < length found →
     result = inl (SeveralComponentError (_name coll) (default "" usage)
                     m found))
  ∧ (∀ component_class,
       found = [component_class] →
       component_class ∈ found
       ∧ (m = cur →
          result = inr ({| cls := component_class; work := work self |}, h))
       ∧ (m ≠ cur →
          m ∈ env_models (env coll) →
          ∃ new o',
            result = inr ({| cls := component_class; work := new |},
                          <[new := o']> h)
            ∧ h !! new = None
            ∧ (∀ l, l ≠ new → <[new := o']> h !! l = h !! l)
            ∧ o' !! "model_name" = Some (VStr m)
            ∧ o' !! "collection" = w !! "collection"
            ∧ o' !! "_components_registry" = w !! "_components_registry"
            ∧ is_work_context o' = true)
       ∧ (m ≠ cur →
          m ∉ env_models (env coll) →
          result = inl (KeyError_model m))).
Proof.
  intros Hw Hwf Hcoll Hcur Hr m found result.
  assert (Hres : result =
            match found with
            | [] => inl (NoComponentError_lookup (_name coll) usage m)
            | component_class :: others =>
                if decide (1 < length found) then
                  inl (SeveralComponentError (_name coll) (default "" usage)
                         m found)
                else if decide (m = cur) then
                  inr ({| cls := component_class; work := work self |}, h)
                else
                  '(work_context, h) ← work_on h (work self) m;
                  inr ({| cls := component_class; work := work_context |}, h)
            end).
  { unfold result, component, deref. rewrite Hw. cbn [mbind sum_bind].
    rewrite (or_work_model_name_eq _ w cur Hcur). cbn [mbind sum_bind].
    fold m. unfold _lookup_components, get_components_registry,
      get_collection, getattr.
    rewrite Hr, Hcoll. cbn [mbind sum_bind]. fold found.
    destruct found as [|component_class others]; [done|].
    destruct (decide (1 < length (component_class :: others))); [done|].
    unfold get_model_name, getattr. rewrite Hcur. done. }
  rewrite Hres. split_and!.
  - by intros ->.
  - intros Hlen. destruct found; [by inv Hlen|]. by rewrite decide_True.
  - intros component_class ->. split; [left|].
    rewrite decide_False by (cbn; lia).
    split_and!; intros Hmodel.
    + by rewrite decide_True.
    + intros Hin. rewrite decide_False by done.
      destruct (work_on_new_context (C := C) h (work self) w m coll
                  Hw Hwf Hcoll Hin)
        as (new & o' & -> & Hnew & Hframe & _ & Hc & Hreg & _ & Hmn & Hwf').
      cbn [mbind sum_bind]. exists new, o'. by split_and!.
    + intros Hnotin. rewrite decide_False by done.
      by rewrite (work_on_unknown_model (C := C) h (work self) w m coll
                    Hw Hwf Hcoll Hnotin).
Qed.

End ResolutionFacts.

(** * Properties of the ordered containers *)

Section OrderedDictFacts.
Context {V : Type}.
Implicit Types (d : list (string * V)) (k : string) (v : V).

Lemma get_setitem_eq d k v :
  OrderedDict.get (OrderedDict.setitem d k v) k = Some v.
Proof.
  induction d as [|[k' v'] d IH]; cbn.
  - by rewrite decide_True.
  - destruct (decide (k' = k)) as [->|Hne]; cbn.
    + by rewrite decide_True.
    + by rewrite decide_False.
Qed.

Lemma get_setitem_ne d k k' v :
  k ≠ k' →
  OrderedDict.get (OrderedDict.setitem d k v) k' = OrderedDict.get d k'.
Proof.
  intros Hne. induction d as [|[k0 v0] d IH]; cbn.
  - by rewrite decide_False.
  - destruct (decide (k0 = k)) as [->|Hne0]; cbn.
    + by rewrite !decide_False.
    + by rewrite IH.
Qed.
End OrderedDictFacts.

Section LastOrderedSetFacts.
Context {A : Type} `{EqDecision A}.
Implicit Types (s l : list A) (x y d : A).

Lemma los_add_eq s x :
  LastOrderedSet.add s x = filter (λ y, y ≠ x) s ++ [x].
Proof.
  unfold LastOrderedSet.add, OrderedSet.add, OrderedSet.discard.
  rewrite decide_False; [done|].
  rewrite list_elem_of_filter. by intros [? _].
Qed.

Lemma los_add_last s x : last (LastOrderedSet.add s x) = Some x.
Proof. by rewrite los_add_eq, last_snoc. Qed.

Lemma los_add_elem_of s x y :
  y ∈ LastOrderedSet.add s x ↔ y = x ∨ y ∈ s.
Proof.
  rewrite los_add_eq, elem_of_app, list_elem_of_filter, list_elem_of_singleton.
  split.
  - intros [[_ ?]|?]; auto.
  - intros [->|?]; [by right|].
    destruct (decide (y = x)) as [->|]; [by right|by left].
Qed.

Lemma los_add_head d s x :
  d ≠ x → LastOrderedSet.add (d :: s) x = d :: LastOrderedSet.add s x.
Proof. intros Hne. rewrite !los_add_eq. by rewrite filter_cons_True. Qed.

Lemma los_foldl_add_head d s l :
  d ∉ l →
  foldl LastOrderedSet.add (d :: s) l = d :: foldl LastOrderedSet.add s l.
Proof.
  revert s. induction l as [|x l IH]; intros s Hd; [done|].
  apply not_elem_of_cons in Hd as [Hne Hd]. cbn [foldl].
  rewrite los_add_head by done. by apply IH.
Qed.

Lemma los_foldl_add_elem_of s l y :
  y ∈ foldl LastOrderedSet.add s l ↔ y ∈ s ∨ y ∈ l.
Proof.
  revert s. induction l as [|x l IH]; intros s; cbn [foldl].
  - rewrite elem_of_nil. tauto.
  - rewrite IH, los_add_elem_of, elem_of_cons. tauto.
Qed.
End LastOrderedSetFacts.

(** * Properties of the builder *)

Section BuilderFacts.
Import Builder.
Implicit Types (cls : Declaration) (registry : registry_t).
Implicit Types (name parent : string) (parents : list string).
Implicit Types (bases : list class_ref).

(** The expression that determines the name agrees with the reading of
    the documentation. *)
Lemma name_of_resolved cls :
  match resolved_name_spec cls with
  | Some n => name_of cls (parents_of cls) = Py.PStr n ∧ n ≠ ""
  | None => Py.truthy (name_of cls (parents_of cls)) = false
  end.
Proof.
  unfold resolved_name_spec, declared_name, only_parent, name_of.
  unfold Py.py_or, Py.py_and, Py.of_opt, Py.truthy.
  destruct (_name cls) as [n|].
  - destruct (decide (n = "")) as [->|Hn].
    + rewrite bool_decide_eq_true_2 by done. cbn [negb].
      destruct (parents_of cls) as [|p [|q ps]]; cbn; try done.
      destruct (decide (p = "")) as [->|Hp]; [done|].
      by rewrite bool_decide_eq_true_2.
    + by rewrite bool_decide_eq_false_2.
  - destruct (parents_of cls) as [|p [|q ps]]; cbn; try done.
    destruct (decide (p = "")) as [->|Hp]; [done|].
    by rewrite bool_decide_eq_true_2.
Qed.

Lemma build_component_named cls registry n :
  name_in_registry cls registry = false →
  resolved_name_spec cls = Some n →
  _build_component cls registry =
  build_named cls n (parents_of cls) registry.
Proof.
  intros Hdup Hn. pose proof (name_of_resolved cls) as Hname.
  rewrite Hn in Hname. destruct Hname as [Hname Hne].
  unfold _build_component. rewrite Hdup, Hname. cbn [Py.truthy].
  by rewrite bool_decide_eq_false_2.
Qed.

Lemma build_component_nameless cls registry :
  name_in_registry cls registry = false →
  resolved_name_spec cls = None →
  _build_component cls registry = (inl must_have_a_name, registry).
Proof.
  intros Hdup Hn. pose proof (name_of_resolved cls) as Hname.
  rewrite Hn in Hname.
  unfold _build_component. rewrite Hdup.
  destruct (name_of cls (parents_of cls)); try done.
  by rewrite Hname.
Qed.


(** C7: a declaration with a [_name] that the registry already holds,
    and that is not one of its own parents, makes the build raise the
    "already exists" [TypeError]; the registry is left as it was. *)
Theorem build_duplicate_name_raises cls registry n :
  _name cls = Some n →
  n ∉ parents_of cls →
  OrderedDict.contains registry n = true →
  _build_component cls registry = (inl (already_exists n), registry).
Proof.
  intros Hn _ Hin. unfold _build_component, name_in_registry.
  by rewrite Hn, Hin.
Qed.


Lemma add_parents_app name ps qs bases registry :
  add_parents name (ps ++ qs) bases registry =
  match add_parents name ps bases registry with
  | (inl e, registry') => (inl e, registry')
  | (inr bases', registry') => add_parents name qs bases' registry'
  end.
Proof.
  revert bases registry.
  induction ps as [|p ps IH]; intros bases registry; [done|].
  cbn [app add_parents].
  destruct (OrderedDict.get registry p); [|done].
  destruct (decide (p = name)); apply IH.
Qed.

(** The loop over the parents only adds children: the bases of the
    component classes of the registry stay as they are. *)
Lemma add_parents_keeps_bases name parents bases registry k :
  __bases__ <$> OrderedDict.get (add_parents name parents bases registry).2 k
  = __bases__ <$> OrderedDict.get registry k.
Proof.
  revert bases registry.
  induction parents as [|p ps IH]; intros bases registry; [done|].
  cbn [add_parents].
  destruct (OrderedDict.get registry p) as [pc|] eqn:Hp; [|done].
  destruct (decide (p = name)); [apply IH|].
  rewrite IH. destruct (decide (p = k)) as [->|Hne].
  - by rewrite get_setitem_eq, Hp.
  - by rewrite get_setitem_ne.
Qed.

Lemma add_parents_last name parents bases registry bases' registry' :
  name ≠ "base" →
  add_parents name (with_base name parents) bases registry
    = (inr bases', registry') →
  last bases' = Some (Composed "base").
Proof.
  intros Hname. unfold with_base. rewrite decide_True by done.
  rewrite add_parents_app.
  destruct (add_parents name parents bases registry) as [[e|b1] r1]; [done|].
  cbn [add_parents].
  destruct (OrderedDict.get r1 "base"); [|done].
  rewrite decide_False by done.
  intros [= <- _]. apply los_add_last.
Qed.

Lemma build_component_keeps_ends_in_base cls registry :
  ends_in_base registry →
  ends_in_base (_build_component cls registry).2.
Proof.
  intros Hinv. unfold _build_component.
  destruct (name_in_registry cls registry); [done|].
  destruct (name_of cls (parents_of cls)) as [| |name]; try done.
  destruct (negb _); [done|].
  unfold build_named.
  destruct (component_class_for _ _ _) as [e|c]; [done|].
  destruct (add_parents name _ _ registry) as [[e|bases] registry'] eqn:Hp.
  - cbn [snd]. intros k ck Hk Hne.
    pose proof (add_parents_keeps_bases name (with_base name (parents_of cls))
                  (LastOrderedSet.of_list [Declared (cls_id cls)])
                  registry k) as Hb.
    rewrite Hp in Hb. cbn [snd] in Hb. rewrite Hk in Hb.
    destruct (OrderedDict.get registry k) as [ck'|] eqn:Hk'; [|done].
    injection Hb as ->. by apply (Hinv k ck').
  - cbn [snd]. intros k ck Hk Hne.
    destruct (decide (name = k)) as [<-|Hnk].
    + rewrite get_setitem_eq in Hk. injection Hk as <-. cbn.
      by eapply add_parents_last.
    + rewrite get_setitem_ne in Hk by done.
      pose proof (add_parents_keeps_bases name
                    (with_base name (parents_of cls))
                    (LastOrderedSet.of_list [Declared (cls_id cls)])
                    registry k) as Hb.
      rewrite Hp in Hb. cbn [snd] in Hb. rewrite Hk in Hb.
      destruct (OrderedDict.get registry k) as [ck'|] eqn:Hk'; [|done].
      injection Hb as ->. by apply (Hinv k ck').
Qed.

(** Every component except ['base'] gets ['base'] as its last parent. *)
Lemma with_base_appends name parents :
  name ≠ "base" → with_base name parents = parents ++ ["base"].
Proof. intros Hne. unfold with_base. by rewrite decide_True. Qed.

(** C5: in a registry that the builder has filled, every component
    class other than ['base'] ends its bases with the component class
    ['base']: the builder appends ['base'] to the parents of every other
    component, and the last parent is the last base. *)
Theorem built_components_end_in_base registry :
  built registry →
  ∀ name c,
    OrderedDict.get registry name = Some c →
    name ≠ "base" →
    last (__bases__ c) = Some (Composed "base")
    ∧ Composed "base" ∈ __bases__ c.
Proof.
  intros Hbuilt.
  assert (Hinv : ends_in_base registry).
  { induction Hbuilt as [|cls registry _ IH]; [done|].
    by apply build_component_keeps_ends_in_base. }
  intros name c Hc Hne. pose proof (Hinv name c Hc Hne) as Hlast.
  split; [done|].
  destruct (__bases__ c) as [|b bs] using rev_ind; [done|].
  rewrite last_snoc in Hlast. injection Hlast as ->.
  apply elem_of_app. right. left.
Qed.

(** An extension of a component that the registry does not hold. *)
Lemma build_extension_of_unregistered cls registry n :
  name_in_registry cls registry = false →
  resolved_name_spec cls = Some n →
  n ∈ parents_of cls →
  OrderedDict.get registry n = None →
  _build_component cls registry =
  (inl (does_not_exist_in_registry n), registry).
Proof.
  intros Hdup Hn Hin Hget.
  rewrite (build_component_named cls registry n Hdup Hn).
  unfold build_named, component_class_for.
  rewrite decide_True, Hget; [done|].
  unfold with_base. destruct (decide (n ≠ "base")); [|done].
  apply elem_of_app. by left.
Qed.

(** An extension in place written with [_inherit] alone: the class of
    the declaration comes first in the bases, before all the bases the
    component had. *)
Lemma build_extends_in_place cls registry n c base_class :
  _name cls = None →
  parents_of cls = [n] →
  n ≠ "" →
  OrderedDict.get registry n = Some c →
  OrderedDict.get registry "base" = Some base_class →
  Declared (cls_id cls) ∉ __bases__ c →
  ∃ rest registry',
    _build_component cls registry = (inr n, registry')
    ∧ __bases__ <$> OrderedDict.get registry' n
      = Some (Declared (cls_id cls) :: rest)
    ∧ ∀ b, b ∈ __bases__ c → b ∈ rest.
Proof.
  intros Hname Hparents Hn Hc Hbase Hfresh.
  assert (Hdup : name_in_registry cls registry = false).
  { unfold name_in_registry. by rewrite Hname. }
  assert (Hres : resolved_name_spec cls = Some n).
  { unfold resolved_name_spec, declared_name, only_parent.
    rewrite Hname, Hparents. by rewrite decide_False. }
  rewrite (build_component_named cls registry n Hdup Hres), Hparents.
  unfold build_named, component_class_for, with_base.
  assert (Hof : LastOrderedSet.of_list [Declared (cls_id cls)]
                = [Declared (cls_id cls)]).
  { unfold LastOrderedSet.of_list. cbn [foldl]. by rewrite los_add_eq. }
  rewrite Hof.
  set (old := foldl LastOrderedSet.add [] (__bases__ c)).
  assert (Hold : ∀ b, b ∈ __bases__ c → b ∈ old).
  { intros b Hb. apply los_foldl_add_elem_of. by right. }
  destruct (decide (n ≠ "base")) as [Hnb|Hnb].
  - rewrite decide_True by left. rewrite Hc.
    cbn [app add_parents]. rewrite Hc, decide_True by done.
    rewrite los_foldl_add_head by done. fold old.
    rewrite Hbase, decide_False by done.
    rewrite los_add_head by done.
    eexists _, _. split; [done|]. rewrite get_setitem_eq. cbn.
    split; [done|]. intros b Hb. apply los_add_elem_of. right. by apply Hold.
  - rewrite decide_True by left. rewrite Hc.
    cbn [add_parents]. rewrite Hc, decide_True by done.
    rewrite los_foldl_add_head by done. fold old.
    eexists _, _. split; [done|]. rewrite get_setitem_eq. cbn.
    split; [done|]. done.
Qed.

End BuilderFacts.

(** * The properties on the examples *)

(** [component] for the usage [vocalizer] and the model [res.partner],
    from a work context on [res.users]. *)
Lemma component_resolves_one_witness :
  ∃ new o',
    AbstractComponent.component Examples.registries Examples.h0
      (Examples.base_instance 5) (Some "vocalizer")
      (AbstractComponent.ArgStr "res.partner")
    = inr ({| AbstractComponent.cls := Examples.vocalizer;
              AbstractComponent.work := new |}, <[new := o']> Examples.h0)
    ∧ o' !! "model_name" = Some (WorkContext.VStr "res.partner").
Proof.
  destruct (component_resolves_one Examples.registries Examples.h0
              (Examples.base_instance 5) (Examples.work_context 1)
              (Some "vocalizer") (AbstractComponent.ArgStr "res.partner")
              Examples.coll "res.users" 1
              eq_refl eq_refl eq_refl eq_refl eq_refl)
    as (_ & _ & Hone).
  destruct (Hone Examples.vocalizer eq_refl) as (_ & _ & Hother & _).
  destruct Hother as (new & o' & Hres & _ & _ & Hm & _).
  - discriminate.
  - apply (bool_decide_unpack _). vm_compute. exact I.
  - exists new, o'. split; [exact Hres|exact Hm].
Defined.

(** C2 fails as stated: for the usage [vocalizer] and a model that the
    environment does not hold, the lookup finds exactly one component,
    and [component] neither returns an instance nor raises
    [NoComponentError] or [SeveralComponentError]: it raises the
    [KeyError] of [env[model_name]]. *)
Lemma component_unknown_model_counterexample :
  ComponentGlobalRegistry.lookup (Examples.registries 1)
    "foo.bar.collection" (Some "vocalizer") (Some "no.such.model")
  = [Examples.vocalizer]
  ∧ AbstractComponent.component Examples.registries Examples.h0
      (Examples.base_instance 5) (Some "vocalizer")
      (AbstractComponent.ArgStr "no.such.model")
    = inl (KeyError_model "no.such.model").
Proof. split; reflexivity. Qed.

(** [component_by_name] for [vocalizer] and the model [res.partner],
    from a work context on [res.users]. *)
Lemma component_by_name_resolves_witness :
  ∃ new o',
    AbstractComponent.component_by_name Examples.registries Examples.h0
      (Examples.base_instance 5) "vocalizer"
      (AbstractComponent.ArgStr "res.partner")
    = inr ({| AbstractComponent.cls := Examples.vocalizer;
              AbstractComponent.work := new |}, <[new := o']> Examples.h0)
    ∧ o' !! "model_name" = Some (WorkContext.VStr "res.partner").
Proof.
  destruct (component_by_name_resolves Examples.registries Examples.h0
              (Examples.base_instance 5) (Examples.work_context 1)
              "vocalizer" (AbstractComponent.ArgStr "res.partner")
              Examples.coll "res.users" 1
              eq_refl eq_refl eq_refl eq_refl eq_refl)
    as (_ & _ & Hok).
  destruct (Hok Examples.vocalizer eq_refl) as (_ & Hother & _).
  - intros models Hmodels. discriminate Hmodels.
  - destruct Hother as (new & o' & Hres & _ & _ & Hm & _).
    + discriminate.
    + apply (bool_decide_unpack _). vm_compute. exact I.
    + exists new, o'. split; [exact Hres|exact Hm].
Defined.

(** C6 fails as stated: the registry has the component [vocalizer], which
    applies on every model, and for a model that the environment does
    not hold [component_by_name] neither returns an instance nor raises
    [NoComponentError]: it raises the [KeyError] of [env[model_name]]. *)
Lemma component_by_name_unknown_model_counterexample :
  OrderedDict.get (Examples.registries 1) "vocalizer"
  = Some Examples.vocalizer
  ∧ apply_on_models Examples.vocalizer = None
  ∧ AbstractComponent.component_by_name Examples.registries Examples.h0
      (Examples.base_instance 5) "vocalizer"
      (AbstractComponent.ArgStr "no.such.model")
    = inl (KeyError_model "no.such.model").
Proof. split_and!; reflexivity. Qed.

(** [work_on('res.partner')] on the context made with [hello='world']. *)
Lemma work_on_keeps_attributes_witness :
  ∃ new o',
    WorkContext.work_on (C := ComponentClass) Examples.h0 5 "res.partner"
    = inr (new, <[new := o']> Examples.h0)
    ∧ <[new := o']> Examples.h0 !! 5 = Some (Examples.work_context 1)
    ∧ o' !! "collection" = Some (WorkContext.VCollection Examples.coll)
    ∧ o' !! "_components_registry" = Some (WorkContext.VRegistry 1)
    ∧ o' !! "hello" = Some (WorkContext.VStr "world")
    ∧ o' !! "model_name" = Some (WorkContext.VStr "res.partner").
Proof.
  destruct (work_on_keeps_attributes (C := ComponentClass) Examples.h0 5
              (Examples.work_context 1) "res.partner" Examples.coll
              eq_refl eq_refl eq_refl)
    as [Hknown _].
  destruct Hknown
    as (new & o' & Hw & _ & _ & Hself & Hc & Hr & Hprop & Hm & _).
  { apply (bool_decide_unpack _). vm_compute. exact I. }
  exists new, o'.
  assert (Hhello : o' !! "hello" = Examples.work_context 1 !! "hello").
  { apply (Hprop ["_components_registry"; "hello"] "hello"); [reflexivity|].
    apply (bool_decide_unpack _). vm_compute. exact I. }
  rewrite Hc, Hr, Hhello.
  split_and!; [exact Hw|exact Hself|reflexivity..|exact Hm].
Defined.

(** C9 fails as stated: [work_on] for a model that the environment does
    not hold returns no context, it raises the [KeyError] of
    [env[model_name]]. *)
Lemma work_on_unknown_model_counterexample :
  Examples.h0 !! 5 = Some (Examples.work_context 1)
  ∧ WorkContext.is_work_context (Examples.work_context 1) = true
  ∧ WorkContext.work_on (C := ComponentClass) Examples.h0 5 "no.such.model"
    = inl (KeyError_model "no.such.model").
Proof. split_and!; reflexivity. Qed.

(** A second declaration with [_name = 'a']. *)
Lemma build_duplicate_name_raises_witness :
  Builder._build_component Examples.A1 Examples.registry_ab
  = (inl (Builder.already_exists "a"), Examples.registry_ab).
Proof.
  apply (build_duplicate_name_raises Examples.A1 Examples.registry_ab "a");
    [reflexivity| |reflexivity].
  apply not_elem_of_nil.
Defined.


(** The component ['a'] after the builds of ['base'], ['a'] and ['b']. *)
Lemma built_components_end_in_base_witness :
  last (Builder.__bases__ Examples.composed_a) = Some (Builder.Composed "base")
  ∧ Builder.Composed "base" ∈ Builder.__bases__ Examples.composed_a.
Proof.
  apply (built_components_end_in_base Examples.registry_ab
           (Builder.built_step Examples.B1 _
              (Builder.built_step Examples.A1 _
                 (Builder.built_step Examples.Base _ Builder.built_empty)))
           "a" Examples.composed_a);
    [reflexivity|discriminate].
Defined.

(** C4 on the declaration [B2] of the comment of [_build_component], which
    has [_name = 'b'] and [_inherit = ['a', 'b']]: its name is one of its
    own parents and the registry holds the component ['b'], yet the build
    raises the "already exists" [TypeError] and leaves the component ['b']
    as it was, without the class of [B2] among its bases. *)
Theorem build_explicit_extension_raises :
  Builder.resolved_name_spec Examples.B2 = Some "b"
  ∧ "b" ∈ Builder.parents_of Examples.B2
  ∧ OrderedDict.contains Examples.registry_ab "b" = true
  ∧ Builder._build_component Examples.B2 Examples.registry_ab
    = (inl (Builder.already_exists "b"), Examples.registry_ab)
  ∧ Builder.__bases__ <$> OrderedDict.get Examples.registry_ab "b"
    = Some [Builder.Declared 2; Builder.Composed "base"].
Proof.
  split_and!; try reflexivity.
  apply (bool_decide_unpack _). vm_compute. exact I.
Qed.

(** * Further properties of the registry lookup *)

Section MoreLookupFacts.
Context {C : Type} `{ComponentAttrs C}.
Import ComponentGlobalRegistry.

Implicit Types (self : list (string * C)) (c : C).

Lemma elem_of_lookup self collection_name usage model_name c :
  c ∈ lookup self collection_name usage model_name ↔
  selected collection_name usage model_name c
  ∧ c ∈ OrderedDict.itervalues self.
Proof.
  rewrite lookup_is_lookup_spec. unfold lookup_spec.
  apply list_elem_of_filter.
Qed.

(** A component without [_collection] is shared: it is found for one
    collection name exactly when it is found for any other one.  A
    component with a [_collection] is only found for that collection. *)
Theorem lookup_shares_components_without_collection
    self collection_name usage model_name c :
  c ∈ lookup self collection_name usage model_name →
  match _collection c with
  | None =>
      ∀ other, c ∈ lookup self other usage model_name
  | Some name => name = collection_name
  end.
Proof.
  rewrite elem_of_lookup. intros [(Habs & Hcoll & Husage & Happ) Hin].
  destruct (_collection c) as [name|] eqn:Hc.
  - destruct Hcoll as [[= ->]|?]; done.
  - intros other. rewrite elem_of_lookup. split; [|done].
    unfold selected. rewrite Hc. split_and!; try done. by right.
Qed.

Lemma filter_filter_comm {A} (P Q : A → Prop)
    `{!∀ x, Decision (P x), !∀ x, Decision (Q x)} (l : list A) :
  filter P (filter Q l) = filter Q (filter P l).
Proof.
  rewrite !list_filter_filter. apply list_filter_iff. intros x. tauto.
Qed.

(** Asking for a usage narrows the result: what is found for a usage is
    found, in the same order, without usage, and has that usage.  A
    component without [_usage] is never found by usage. *)
Theorem lookup_usage_narrows self collection_name usage model_name :
  lookup self collection_name (Some usage) model_name
    `sublist_of` lookup self collection_name None model_name
  ∧ Forall (λ c, _usage c = Some usage)
      (lookup self collection_name (Some usage) model_name).
Proof.
  split.
  - rewrite !lookup_filters. unfold usage_components.
    rewrite filter_filter_comm. apply sublist_filter.
  - apply Forall_forall. intros c. rewrite elem_of_lookup.
    by intros [(_ & _ & Hu & _) _].
Qed.

Lemma itervalues_setitem_new self (k : string) c :
  OrderedDict.contains self k = false →
  OrderedDict.itervalues (OrderedDict.setitem self k c)
  = OrderedDict.itervalues self ++ [c].
Proof.
  unfold OrderedDict.contains, OrderedDict.itervalues.
  induction self as [|[k' c'] self IH]; intros Hk; [done|].
  cbn [OrderedDict.get OrderedDict.setitem] in *.
  destruct (decide (k' = k)); [done|].
  rewrite !fmap_cons, IH by done. done.
Qed.

(** Components are found in the order of their registration: a component
    registered under a new name comes after everything that was found
    before, and what was found before is found as before. *)
Theorem lookup_after_registration
    self (k : string) c collection_name usage model_name :
  OrderedDict.contains self k = false →
  lookup (OrderedDict.setitem self k c) collection_name usage model_name
  = lookup self collection_name usage model_name
    ++ (if decide (selected collection_name usage model_name c)
        then [c] else []).
Proof.
  intros Hk. rewrite !lookup_is_lookup_spec. unfold lookup_spec.
  rewrite itervalues_setitem_new by done.
  rewrite filter_app. f_equal.
Qed.

(** A component whose [_apply_on] is the empty list is found by no
    lookup, whatever the model, while [component_by_name] accepts it for
    every model. *)
Theorem empty_apply_on_is_never_looked_up c :
  _apply_on c = ApplyList [] →
  (∀ self collection_name usage model_name,
     c ∉ lookup self collection_name usage model_name)
  ∧ ∀ work_model, AbstractComponent.not_for_model c work_model = None.
Proof.
  intros Happly. split.
  - intros self collection_name usage model_name.
    rewrite elem_of_lookup. intros [(_ & _ & _ & Hm) _].
    unfold apply_on_models in Hm. rewrite Happly in Hm.
    destruct model_name as [m|]; [by inv Hm|done].
  - intros work_model. unfold AbstractComponent.not_for_model, apply_on_models.
    by rewrite Happly.
Qed.

End MoreLookupFacts.

(** The component [shared] has no collection and is found for the
    collection of the documentation. *)
Lemma lookup_shares_components_without_collection_witness :
  MoreExamples.shared
  ∈ ComponentGlobalRegistry.lookup MoreExamples.components3
      "another.collection" (Some "speak") (Some "res.users").
Proof.
  assert (Hin : MoreExamples.shared
                ∈ ComponentGlobalRegistry.lookup MoreExamples.components3
                    "foo.bar.collection" (Some "speak") (Some "res.users")).
  { vm_compute. right. left. }
  exact (lookup_shares_components_without_collection
           MoreExamples.components3 "foo.bar.collection" (Some "speak")
           (Some "res.users") MoreExamples.shared Hin "another.collection").
Defined.

(** [shared] registered after the components of the documentation. *)
Lemma lookup_after_registration_witness :
  ComponentGlobalRegistry.lookup
    (OrderedDict.setitem Examples.components "shared" MoreExamples.shared)
    "foo.bar.collection" (Some "speak") (Some "res.users")
  = [Examples.foo; MoreExamples.shared].
Proof.
  rewrite (lookup_after_registration Examples.components "shared"
             MoreExamples.shared "foo.bar.collection" (Some "speak")
             (Some "res.users")) by reflexivity.
  reflexivity.
Defined.

(** The component [nowhere]. *)
Lemma empty_apply_on_is_never_looked_up_witness :
  (MoreExamples.nowhere
   ∉ ComponentGlobalRegistry.lookup [("nowhere", MoreExamples.nowhere)]
       "foo.bar.collection" (Some "speak") (Some "res.users"))
  ∧ AbstractComponent.not_for_model MoreExamples.nowhere "res.users" = None.
Proof.
  assert (Happly : _apply_on MoreExamples.nowhere = ApplyList [])
    by reflexivity.
  destruct (empty_apply_on_is_never_looked_up MoreExamples.nowhere Happly)
    as [Hlookup Hname].
  split; [apply Hlookup|apply Hname].
Defined.

(** * Further properties of the work contexts *)

Section MoreWorkContextFacts.
Context {C : Type}.
Import WorkContext.

Implicit Types (o : object) (h : heap) (kwargs : gmap string value).

Local Ltac in_names :=
  apply (bool_decide_unpack _); vm_compute; exact I.

(** [WorkContext(collection, model_name, components_registry, **kwargs)]
    for a model that the environment holds, with keyword names that are
    not reserved and without a keyword [_components_registry]: the
    context is well formed, it has the collection and the model name
    given, the registry given or [all_components], and every keyword
    argument as an attribute. *)
Theorem init_makes_work_context (collection : Collection)
    (model_name : string) (components_registry : option registry_ref) kwargs :
  model_name ∈ env_models (env collection) →
  (∀ k, k ∈ reserved → kwargs !! k = None) →
  kwargs !! "_components_registry" = None →
  ∃ o,
    __init__ (C := C) collection model_name
      (from_option VRegistry VNone components_registry) kwargs = inr o
    ∧ is_work_context o = true
    ∧ o !! "collection" = Some (VCollection collection)
    ∧ o !! "model_name" = Some (VStr model_name)
    ∧ o !! "_components_registry"
      = Some (VRegistry (default all_components components_registry))
    ∧ (∀ k v, kwargs !! k = Some v → o !! k = Some v)
    ∧ (kwargs !! "model" = None →
       o !! "model"
       = Some (VModel {| model_env := env collection;
                                     model__name := model_name |})).
Proof.
  intros Hmodel Hres Hcr.
  assert (Hkeys : ∀ k, k ∈ (map_to_list kwargs).*1 → is_Some (kwargs !! k)).
  { intros k Hin. apply list_elem_of_fmap in Hin as ([k' v] & -> & Hin).
    apply elem_of_map_to_list in Hin. by eexists. }
  assert (Hnot : ∀ k, k ∈ (map_to_list kwargs).*1 → k ∉ reserved).
  { intros k Hin Hr. destruct (Hkeys k Hin) as [v Hv].
    rewrite (Hres k Hr) in Hv. done. }
  assert (Hset : ∀ r : registry_ref,
            set_kwargs (C := C)
              (<["_propagate_kwargs" := VList ["_components_registry"]]>
                 (<["_components_registry" := VRegistry r]>
                    (<["model" :=
                         VModel {| model_env := env collection;
                                     model__name := model_name |}]>
                       (<["model_name" := VStr model_name]>
                          (<["collection" := VCollection collection]>
                             (∅ : object))))))
              (map_to_list kwargs)
            = inr (<["_propagate_kwargs" :=
                       VList (["_components_registry"]
                              ++ (map_to_list kwargs).*1)]>
                     (kwargs
                      ∪ <["_propagate_kwargs" :=
                            VList ["_components_registry"]]>
                          (<["_components_registry" := VRegistry r]>
                             (<["model" :=
                                  VModel {| model_env := env collection;
                                     model__name := model_name |}]>
                                (<["model_name" := VStr model_name]>
                                   (<["collection" := VCollection collection]>
                                      (∅ : object)))))))).
  { intros r.
    rewrite (set_kwargs_inserts _ _ ["_components_registry"]).
    - by rewrite list_to_map_to_list.
    - apply NoDup_fst_map_to_list.
    - intros k Hin. specialize (Hnot k Hin).
      split; intros ->; apply Hnot; in_names.
    - by rewrite lookup_insert_eq. }
  set (r := default all_components components_registry).
  set (o := <["_propagate_kwargs" :=
               VList (["_components_registry"] ++ (map_to_list kwargs).*1)]>
              (kwargs
               ∪ <["_propagate_kwargs" := VList ["_components_registry"]]>
                   (<["_components_registry" := VRegistry r]>
                      (<["model" :=
                           VModel {| model_env := env collection;
                                     model__name := model_name |}]>
                         (<["model_name" := VStr model_name]>
                            (<["collection" := VCollection collection]>
                               (∅ : object))))))).
  exists o. split.
  { unfold __init__, env_getitem, o, r. rewrite decide_True by done.
    destruct components_registry as [r0|]; cbn [from_option default];
      apply Hset. }
  assert (Hk : ∀ k v, kwargs !! k = Some v → o !! k = Some v).
  { intros k v Hv. unfold o. rewrite lookup_insert_ne.
    - by apply lookup_union_Some_l.
    - intros <-. rewrite Hres in Hv by in_names. done. }
  assert (Hc : o !! "collection" = Some (VCollection collection)).
  { unfold o. rewrite lookup_insert_ne by done.
    rewrite lookup_union_r by (apply Hres; in_names). done. }
  assert (Hm : o !! "model_name" = Some (VStr model_name)).
  { unfold o. rewrite lookup_insert_ne by done.
    rewrite lookup_union_r by (apply Hres; in_names). done. }
  assert (Hr : o !! "_components_registry" = Some (VRegistry r)).
  { unfold o. rewrite lookup_insert_ne by done.
    rewrite lookup_union_r by done. done. }
  split_and!; try done.
  - apply (is_work_context_intro o collection model_name r
             ("_components_registry" :: (map_to_list kwargs).*1));
      try done.
    + unfold o. by rewrite lookup_insert_eq.
    + left.
    + intros a Ha. apply elem_of_cons in Ha as [->|Ha].
      * split; [by rewrite Hr|]. intros Hin.
        apply (bool_decide_pack _) in Hin. vm_compute in Hin. done.
      * destruct (Hkeys a Ha) as [v Hv]. split; [|by apply Hnot].
        rewrite (Hk a v Hv). by eexists.
  - intros Hnomodel. unfold o. rewrite lookup_insert_ne by done.
    rewrite lookup_union_r by done. done.
Qed.

Lemma set_kwargs_env (self : object) (items : list (string * value))
    (l0 : list string) :
  "env" ∈ items.*1 →
  "_propagate_kwargs" ∉ items.*1 →
  self !! "_propagate_kwargs" = Some (VList l0) →
  set_kwargs (C := C) self items = inl (AttributeError "env").
Proof.
  revert self l0.
  induction items as [|[k v] items IH]; intros self l0 Henv Hpk Hl0.
  - by inv Henv.
  - rewrite fmap_cons in Henv, Hpk. cbn [fst] in Henv, Hpk.
    apply not_elem_of_cons in Hpk as [Hne Hpk].
    cbn [set_kwargs]. unfold setattr.
    destruct (decide (k = "env")) as [->|Hk]; [done|].
    cbn [mbind sum_bind].
    unfold _propagate_kwargs_append, getattr.
    rewrite lookup_insert_ne, Hl0 by done. cbn [mbind sum_bind].
    apply (IH _ (l0 ++ [k])); [|done|by rewrite lookup_insert_eq].
    apply elem_of_cons in Henv as [?|?]; done.
Qed.

(** A keyword argument named [env] cannot be set: [env] is a property of
    the work context.  For a model that the environment holds and
    without a keyword [_propagate_kwargs], the construction raises
    [AttributeError]; for a model that the environment does not hold it
    raises the [KeyError] of [env[model_name]] before it looks at the
    keywords. *)
Theorem init_env_keyword_raises (collection : Collection)
    (model_name : string) (components_registry : value) kwargs v :
  kwargs !! "env" = Some v →
  kwargs !! "_propagate_kwargs" = None →
  __init__ (C := C) collection model_name components_registry kwargs
  = if decide (model_name ∈ env_models (env collection))
    then inl (AttributeError "env")
    else inl (KeyError_model model_name).
Proof.
  intros Henv Hpk. unfold __init__, env_getitem.
  destruct (decide (model_name ∈ env_models (env collection))); [|done].
  assert (Hin : "env" ∈ (map_to_list kwargs).*1).
  { apply list_elem_of_fmap. exists ("env", v). split; [done|].
    by apply elem_of_map_to_list. }
  assert (Hnotin : "_propagate_kwargs" ∉ (map_to_list kwargs).*1).
  { intros Hin'. apply list_elem_of_fmap in Hin' as ([k' v'] & Heq & Hin').
    apply elem_of_map_to_list in Hin'. cbn [fst] in Heq. subst k'.
    congruence. }
  destruct components_registry;
    by apply (set_kwargs_env _ _ ["_components_registry"]);
      [..|rewrite lookup_insert_eq].
Qed.


End MoreWorkContextFacts.

(** [WorkContext(coll, 'res.users', hello='world')] *)
Lemma init_makes_work_context_witness :
  ∃ o,
    WorkContext.__init__ (C := ComponentClass) Examples.coll "res.users"
      WorkContext.VNone {[ "hello" := WorkContext.VStr "world" ]} = inr o
    ∧ WorkContext.is_work_context o = true
    ∧ o !! "_components_registry"
      = Some (WorkContext.VRegistry WorkContext.all_components)
    ∧ o !! "hello" = Some (WorkContext.VStr "world").
Proof.
  destruct (init_makes_work_context (C := ComponentClass) Examples.coll
              "res.users" None {[ "hello" := WorkContext.VStr "world" ]})
    as (o & Hinit & Hwf & _ & _ & Hr & Hk & _).
  - apply (bool_decide_unpack _). vm_compute. exact I.
  - intros k Hk. apply lookup_singleton_ne. intros <-.
    apply (bool_decide_pack _) in Hk. vm_compute in Hk. done.
  - reflexivity.
  - exists o. split_and!; [exact Hinit|exact Hwf|exact Hr|].
    apply Hk. reflexivity.
Defined.

(** [WorkContext(coll, 'res.users', env=...)] *)
Lemma init_env_keyword_raises_witness :
  WorkContext.__init__ (C := ComponentClass) Examples.coll "res.users"
    WorkContext.VNone {[ "env" := WorkContext.VObject 1 ]}
  = inl (AttributeError "env").
Proof.
  rewrite (init_env_keyword_raises (C := ComponentClass) Examples.coll
             "res.users" WorkContext.VNone
             {[ "env" := WorkContext.VObject 1 ]} (WorkContext.VObject 1))
    by reflexivity.
  reflexivity.
Defined.


(** * Further properties of the resolution of components *)

Section MoreResolutionFacts.
Context {C : Type} `{ComponentAttrs C}.
Variable registries : WorkContext.registry_ref → list (string * C).
Import WorkContext AbstractComponent.

Implicit Types (h : heap) (self : Instance C) (w : object).

Lemma component_eq h self w usage model_name coll cur r :
  h !! work self = Some w →
  w !! "collection" = Some (VCollection coll) →
  w !! "model_name" = Some (VStr cur) →
  w !! "_components_registry" = Some (VRegistry r) →
  component registries h self usage model_name =
  let m := Py.str_or (normalize model_name) cur in
  let found :=
    ComponentGlobalRegistry.lookup (registries r) (_name coll) usage (Some m) in
  match found with
  | [] => inl (NoComponentError_lookup (_name coll) usage m)
  | component_class :: others =>
      if decide (1 < length found) then
        inl (SeveralComponentError (_name coll) (default "" usage) m found)
      else if decide (m = cur) then
        inr ({| cls := component_class; work := work self |}, h)
      else
        '(work_context, h) ← work_on h (work self) m;
        inr ({| cls := component_class; work := work_context |}, h)
  end.
Proof.
  intros Hw Hcoll Hcur Hr. cbv zeta.
  unfold component, deref. rewrite Hw. cbn [mbind sum_bind].
  rewrite (or_work_model_name_eq _ w cur Hcur). cbn [mbind sum_bind].
  unfold _lookup_components, get_components_registry, get_collection, getattr.
  rewrite Hr, Hcoll. cbn [mbind sum_bind].
  destruct (ComponentGlobalRegistry.lookup _ _ _ _)
    as [|component_class others]; [done|].
  destruct (decide (1 < length (component_class :: others))); [done|].
  unfold get_model_name, getattr. rewrite Hcur. done.
Qed.

Lemma many_components_eq h self w usage model_name coll cur r :
  h !! work self = Some w →
  w !! "collection" = Some (VCollection coll) →
  w !! "model_name" = Some (VStr cur) →
  w !! "_components_registry" = Some (VRegistry r) →
  many_components registries h self usage model_name =
  let m := Py.str_or (normalize model_name) cur in
  let found :=
    ComponentGlobalRegistry.lookup (registries r) (_name coll) usage (Some m) in
  if decide (m = cur) then
    inr (map (λ comp, {| cls := comp; work := work self |}) found, h)
  else
    '(work_context, h) ← work_on h (work self) m;
    inr (map (λ comp, {| cls := comp; work := work_context |}) found, h).
Proof.
  intros Hw Hcoll Hcur Hr. cbv zeta.
  unfold many_components, deref. rewrite Hw. cbn [mbind sum_bind].
  rewrite (or_work_model_name_eq _ w cur Hcur). cbn [mbind sum_bind].
  unfold _lookup_components, get_components_registry, get_collection, getattr.
  rewrite Hr, Hcoll. cbn [mbind sum_bind].
  unfold get_model_name, getattr. rewrite Hcur. done.
Qed.

(** [many_components] on a well-formed work context returns one instance
    for each component that [lookup] finds, in the order of the lookup
    and all on the same work context, and the empty list when nothing is
    found.  For another model than the current one it first makes a new
    work context, also when nothing is found: the instances are on that
    context when the environment holds the model, and the method raises
    the [KeyError] of [env[model_name]] when it does not. *)
Theorem many_components_returns_lookup
    h self w usage model_name coll cur r :
  h !! work self = Some w →
  is_work_context w = true →
  w !! "collection" = Some (VCollection coll) →
  w !! "model_name" = Some (VStr cur) →
  w !! "_components_registry" = Some (VRegistry r) →
  let m := Py.str_or (normalize model_name) cur in
  let found :=
    ComponentGlobalRegistry.lookup (registries r) (_name coll) usage (Some m) in
  let result := many_components registries h self usage model_name in
  (m = cur →
   result = inr (map (λ comp, {| cls := comp; work := work self |}) found, h))
  ∧ (m ≠ cur →
     m ∈ env_models (env coll) →
     ∃ new o',
       result = inr (map (λ comp, {| cls := comp; work := new |}) found,
                     <[new := o']> h)
       ∧ h !! new = None
       ∧ o' !! "model_name" = Some (VStr m)
       ∧ is_work_context o' = true)
  ∧ (m ≠ cur →
     m ∉ env_models (env coll) →
     result = inl (KeyError_model m)).
Proof.
  intros Hw Hwf Hcoll Hcur Hr m found result.
  unfold result.
  rewrite (many_components_eq h self w usage model_name coll cur r)
    by done.
  cbv zeta. fold m. fold found. split_and!; intros Hm.
  - by rewrite decide_True.
  - intros Hin. rewrite decide_False by done.
    destruct (work_on_new_context (C := C) h (work self) w m coll
                Hw Hwf Hcoll Hin)
      as (new & o' & -> & Hnew & _ & _ & _ & _ & _ & Hmn & Hwf').
    cbn [mbind sum_bind]. by exists new, o'.
  - intros Hnotin. rewrite decide_False by done.
    by rewrite (work_on_unknown_model (C := C) h (work self) w m coll
                  Hw Hwf Hcoll Hnotin).
Qed.

(** [component] returns an instance exactly when [many_components]
    returns a list of one instance, and it is that instance, with the
    same heap. *)
Theorem component_iff_one_of_many
    h self w usage model_name coll cur r i h' :
  h !! work self = Some w →
  is_work_context w = true →
  w !! "collection" = Some (VCollection coll) →
  w !! "model_name" = Some (VStr cur) →
  w !! "_components_registry" = Some (VRegistry r) →
  component registries h self usage model_name = inr (i, h')
  ↔ many_components registries h self usage model_name = inr ([i], h').
Proof.
  intros Hw Hwf Hcoll Hcur Hr.
  rewrite (component_eq h self w usage model_name coll cur r) by done.
  rewrite (many_components_eq h self w usage model_name coll cur r) by done.
  cbv zeta.
  set (m := Py.str_or (normalize model_name) cur).
  set (found := ComponentGlobalRegistry.lookup _ _ _ _).
  destruct found as [|c [|c' others]].
  - destruct (decide (m = cur)); [done|].
    destruct (work_on h (work self) m) as [e|[new h1]]; cbn;
      split; intros [=].
  - rewrite decide_False by (cbn; lia).
    destruct (decide (m = cur)).
    + cbn. split; intros [= <- <-]; done.
    + destruct (work_on h (work self) m) as [e|[new h1]]; cbn.
      * split; intros [=].
      * split; intros [= <- <-]; done.
  - rewrite decide_True by (cbn; lia).
    destruct (decide (m = cur)); [done|].
    destruct (work_on h (work self) m) as [e|[new h1]]; cbn;
      split; intros [=].
Qed.

(** The methods of a component use the component only for its work
    context. *)
Lemma methods_depend_on_work h (i j : Instance C) :
  work i = work j →
  (∀ name model_name,
     component_by_name registries h i name model_name
     = match component_by_name registries h j name model_name with
       | inl e => inl e
       | inr (k, h') => inr (k, h')
       end)
  ∧ (∀ usage model_name,
       component registries h i usage model_name
       = component registries h j usage model_name)
  ∧ (∀ usage model_name,
       many_components registries h i usage model_name
       = many_components registries h j usage model_name).
Proof.
  intros Hij. split_and!.
  - intros name model_name.
    unfold component_by_name, _component_class_by_name. rewrite Hij.
    by destruct (_ ≫= _) as [?|[??]].
  - intros usage model_name. unfold component. by rewrite Hij.
  - intros usage model_name. unfold many_components. by rewrite Hij.
Qed.

(** The entry points of the work context need the component ['base'] in
    the registry: without it they raise [KeyError].  With it they give
    what the same method gives when any component on that work context
    calls it. *)
Theorem entry_points_need_base h (self : nat) w r :
  h !! self = Some w →
  w !! "_components_registry" = Some (VRegistry r) →
  match OrderedDict.get (registries r) "base" with
  | None =>
      (∀ name model_name,
         WorkContextEntry.component_by_name registries h self name model_name
         = inl (WorkContextEntry.KeyError "base"))
      ∧ (∀ usage model_name,
           WorkContextEntry.component registries h self usage model_name
           = inl (WorkContextEntry.KeyError "base"))
      ∧ (∀ usage model_name,
           WorkContextEntry.many_components registries h self usage model_name
           = inl (WorkContextEntry.KeyError "base"))
  | Some _ =>
      ∀ i : Instance C,
        work i = self →
        (∀ usage model_name,
           WorkContextEntry.component registries h self usage model_name
           = WorkContextEntry.raised
               (component registries h i usage model_name))
        ∧ (∀ usage model_name,
             WorkContextEntry.many_components registries h self usage
               model_name
             = WorkContextEntry.raised
                 (many_components registries h i usage model_name))
  end.
Proof.
  intros Hw Hr.
  assert (Hbase : WorkContextEntry.base registries h self =
                  match OrderedDict.get (registries r) "base" with
                  | None => inl (WorkContextEntry.KeyError "base")
                  | Some base_class =>
                      inr {| cls := base_class; work := self |}
                  end).
  { unfold WorkContextEntry.base, deref. rewrite Hw.
    unfold get_components_registry, getattr. rewrite Hr. done. }
  unfold WorkContextEntry.component_by_name, WorkContextEntry.component,
    WorkContextEntry.many_components.
  rewrite Hbase.
  destruct (OrderedDict.get (registries r) "base") as [b|]; [|done].
  intros i Hi.
  destruct (methods_depend_on_work h {| cls := b; work := self |} i)
    as (_ & Hc & Hm); [done|].
  split; intros usage model_name; by rewrite ?Hc, ?Hm.
Qed.

End MoreResolutionFacts.

(** [many_components] for the usage [speak] on a registry that has two
    components for it. *)
Lemma many_components_returns_lookup_witness :
  AbstractComponent.many_components Examples.registries Examples.h0
    (Examples.base_instance 6) (Some "speak") AbstractComponent.ArgNone
  = inr ([ {| AbstractComponent.cls := Examples.foo;
              AbstractComponent.work := 6 |};
           {| AbstractComponent.cls := Examples.foo2;
              AbstractComponent.work := 6 |} ], Examples.h0).
Proof.
  destruct (many_components_returns_lookup Examples.registries Examples.h0
              (Examples.base_instance 6) (Examples.work_context 2)
              (Some "speak") AbstractComponent.ArgNone Examples.coll
              "res.users" 2 eq_refl eq_refl eq_refl eq_refl eq_refl)
    as [Hsame _].
  apply Hsame. reflexivity.
Defined.

(** [component] and [many_components] for the usage [speak] on the
    registry of the documentation. *)
Lemma component_iff_one_of_many_witness :
  AbstractComponent.many_components Examples.registries Examples.h0
    (Examples.base_instance 5) (Some "speak") AbstractComponent.ArgNone
  = inr ([ {| AbstractComponent.cls := Examples.foo;
              AbstractComponent.work := 5 |} ], Examples.h0).
Proof.
  apply (component_iff_one_of_many Examples.registries Examples.h0
           (Examples.base_instance 5) (Examples.work_context 1)
           (Some "speak") AbstractComponent.ArgNone Examples.coll
           "res.users" 1 _ Examples.h0 eq_refl eq_refl eq_refl eq_refl
           eq_refl).
  reflexivity.
Defined.

(** The registry of the documentation has no component ['base']. *)
Lemma entry_points_need_base_witness :
  WorkContextEntry.component MoreExamples.registries Examples.h0 5
    (Some "speak") AbstractComponent.ArgNone
  = inl (WorkContextEntry.KeyError "base").
Proof.
  pose proof (entry_points_need_base MoreExamples.registries Examples.h0 5
                (Examples.work_context 1) 1 eq_refl eq_refl)
    as (_ & Hc & _).
  apply Hc.
Defined.

(** * Further properties of the builder *)

Section MoreOrderedDictFacts.
Context {V : Type}.
Implicit Types (d : list (string * V)) (k : string) (v : V).

Lemma get_None_keys d k :
  OrderedDict.get d k = None ↔ k ∉ OrderedDict.keys d.
Proof.
  unfold OrderedDict.keys. induction d as [|[k' v'] d IH]; cbn.
  - split; [intros _; apply not_elem_of_nil|done].
  - rewrite not_elem_of_cons. destruct (decide (k' = k)) as [->|Hne].
    + split; [done|]. by intros [? _].
    + rewrite IH. split; [by split|by intros [_ ?]].
Qed.

Lemma keys_setitem d k v :
  OrderedDict.keys (OrderedDict.setitem d k v)
  = if OrderedDict.contains d k then OrderedDict.keys d
    else OrderedDict.keys d ++ [k].
Proof.
  unfold OrderedDict.keys, OrderedDict.contains.
  induction d as [|[k' v'] d IH]; cbn; [done|].
  destruct (decide (k' = k)) as [->|Hne]; cbn; [done|].
  rewrite IH. by destruct (OrderedDict.get d k).
Qed.
End MoreOrderedDictFacts.

Section MoreLastOrderedSetFacts.
Context {A : Type} `{EqDecision A}.
Implicit Types (s l : list A) (x : A).

Lemma los_add_NoDup s x : NoDup s → NoDup (LastOrderedSet.add s x).
Proof.
  intros Hs. rewrite los_add_eq. apply NoDup_app. split_and!.
  - by apply NoDup_filter.
  - intros y Hy Hx. apply list_elem_of_singleton in Hx as ->.
    apply list_elem_of_filter in Hy as [Hy _]. done.
  - apply NoDup_singleton.
Qed.

Lemma los_add_nonempty s x : LastOrderedSet.add s x ≠ [].
Proof. rewrite los_add_eq. by destruct (filter _ s). Qed.

Lemma los_foldl_add_NoDup s l :
  NoDup s → NoDup (foldl LastOrderedSet.add s l).
Proof.
  revert s. induction l as [|x l IH]; intros s Hs; [done|].
  cbn [foldl]. by apply IH, los_add_NoDup.
Qed.

Lemma los_foldl_add_nonempty s l :
  s ≠ [] → foldl LastOrderedSet.add s l ≠ [].
Proof.
  revert s. induction l as [|x l IH]; intros s Hs; [done|].
  cbn [foldl]. apply IH, los_add_nonempty.
Qed.
End MoreLastOrderedSetFacts.

Section MoreBuilderFacts.
Import Builder.
Implicit Types (cls : Declaration) (registry : registry_t).
Implicit Types (name parent : string) (parents : list string).
Implicit Types (bases : list class_ref).

Lemma grown_refl c : grown c c.
Proof. by split_and!. Qed.

Lemma grown_trans c1 c2 c3 : grown c1 c2 → grown c2 c3 → grown c1 c3.
Proof.
  intros (Hn1 & Hb1 & Hc1) (Hn2 & Hb2 & Hc2). split_and!; [congruence..|auto].
Qed.

Lemma grown_add_child c name : grown c (add_child c name).
Proof.
  split_and!; [done..|]. intros x Hx. cbn. unfold OrderedSet.add.
  destruct (decide _); [done|]. apply elem_of_app. by left.
Qed.

Lemma add_child_elem c name : name ∈ _inherit_children (add_child c name).
Proof.
  cbn. unfold OrderedSet.add. destruct (decide _); [done|].
  apply elem_of_app. right. left.
Qed.

(** The loop over the parents keeps the names of the registry in their
    order, and every component class up to new children. *)
Lemma add_parents_frame name parents bases registry :
  OrderedDict.keys (add_parents name parents bases registry).2
  = OrderedDict.keys registry
  ∧ ∀ k,
      match OrderedDict.get registry k with
      | None =>
          OrderedDict.get (add_parents name parents bases registry).2 k = None
      | Some c =>
          ∃ c',
            OrderedDict.get (add_parents name parents bases registry).2 k
            = Some c'
            ∧ grown c c'
      end.
Proof.
  revert bases registry.
  induction parents as [|p ps IH]; intros bases registry.
  - split; [done|]. intros k. cbn.
    destruct (OrderedDict.get registry k) as [c|]; [|done].
    exists c. split; [done|apply grown_refl].
  - cbn [add_parents].
    destruct (OrderedDict.get registry p) as [pc|] eqn:Hp.
    2:{ split; [done|]. intros k. cbn.
        destruct (OrderedDict.get registry k) as [c|]; [|done].
        exists c. split; [done|apply grown_refl]. }
    destruct (decide (p = name)); [apply IH|].
    destruct (IH (LastOrderedSet.add bases (Composed p))
                (OrderedDict.setitem registry p (add_child pc name)))
      as [Hkeys Hget].
    split.
    + rewrite Hkeys, keys_setitem. unfold OrderedDict.contains.
      by rewrite Hp.
    + intros k. specialize (Hget k).
      destruct (decide (p = k)) as [->|Hne].
      * rewrite get_setitem_eq in Hget. rewrite Hp.
        destruct Hget as (c' & Hc' & Hg). exists c'. split; [done|].
        eapply grown_trans; [apply grown_add_child|done].
      * by rewrite get_setitem_ne in Hget.
Qed.

(** The three ways [_build_component] ends: it raises before the loop
    over the parents, it raises in the loop, or it registers the
    component class. *)
Lemma build_component_cases cls registry :
  (∃ e, _build_component cls registry = (inl e, registry))
  ∨ (∃ e name parents,
       _build_component cls registry
       = (inl e,
          (add_parents name parents [Declared (cls_id cls)] registry).2))
  ∨ (∃ name parents c bases r1,
       name ≠ ""
       ∧ component_class_for name parents registry = inr c
       ∧ add_parents name parents [Declared (cls_id cls)] registry
         = (inr bases, r1)
       ∧ _build_component cls registry
         = (inr name, OrderedDict.setitem r1 name (set_bases c bases))).
Proof.
  unfold _build_component.
  destruct (name_in_registry cls registry); [left; by eexists|].
  destruct (name_of cls (parents_of cls)) as [| |name];
    try (left; by eexists).
  cbn [Py.truthy]. rewrite negb_involutive.
  destruct (bool_decide (name = "")) eqn:Hname; [left; by eexists|].
  apply bool_decide_eq_false in Hname.
  unfold build_named.
  assert (Hof : LastOrderedSet.of_list [Declared (cls_id cls)]
                = [Declared (cls_id cls)]).
  { unfold LastOrderedSet.of_list. cbn [foldl]. by rewrite los_add_eq. }
  rewrite Hof.
  destruct (component_class_for _ _ _) as [e|c] eqn:Hc;
    [left; by eexists|].
  destruct (add_parents name _ _ registry) as [[e|bases] r1] eqn:Hp.
  - right. left. exists e, name, (with_base name (parents_of cls)).
    by rewrite Hp.
  - right. right.
    by exists name, (with_base name (parents_of cls)), c, bases, r1.
Qed.


(** A build that raises leaves the registry with the same names in the
    same order, and every component class with its name and its bases;
    only children may have been added. *)
Theorem failed_build_keeps_components cls registry e :
  (_build_component cls registry).1 = inl e →
  OrderedDict.keys (_build_component cls registry).2
  = OrderedDict.keys registry
  ∧ ∀ k,
      match OrderedDict.get registry k with
      | None => OrderedDict.get (_build_component cls registry).2 k = None
      | Some c =>
          ∃ c',
            OrderedDict.get (_build_component cls registry).2 k = Some c'
            ∧ grown c c'
      end.
Proof.
  destruct (build_component_cases cls registry)
    as [[e' ->]|[(e' & name & parents & ->)
                |(name & parents & c & bases & r1 & _ & _ & _ & ->)]];
    cbn [fst snd]; intros He; [| |done].
  - split; [done|]. intros k.
    destruct (OrderedDict.get registry k) as [c|]; [|done].
    exists c. split; [done|apply grown_refl].
  - apply add_parents_frame.
Qed.

(** A build keeps the order of registration: the names of the registry
    stay in their order, and at most the name that is built is added,
    after all of them.  Every component class other than the one built
    keeps its name and its bases. *)
Theorem build_keeps_registration_order cls registry :
  (OrderedDict.keys (_build_component cls registry).2
   = OrderedDict.keys registry
   ∨ ∃ name,
       (_build_component cls registry).1 = inr name
       ∧ (name ∉ OrderedDict.keys registry)
       ∧ OrderedDict.keys (_build_component cls registry).2
         = OrderedDict.keys registry ++ [name])
  ∧ ∀ k c,
      OrderedDict.get registry k = Some c →
      (_build_component cls registry).1 ≠ inr k →
      ∃ c',
        OrderedDict.get (_build_component cls registry).2 k = Some c'
        ∧ grown c c'.
Proof.
  destruct (build_component_cases cls registry)
    as [[e' ->]|[(e' & name & parents & ->)
                |(name & parents & c & bases & r1 & _ & _ & Hp & ->)]];
    cbn [fst snd].
  - split; [by left|]. intros k c Hk _.
    exists c. split; [done|apply grown_refl].
  - destruct (add_parents_frame name parents [Declared (cls_id cls)]
                registry) as [Hkeys Hget].
    split; [by left|]. intros k c Hk _.
    specialize (Hget k). by rewrite Hk in Hget.
  - destruct (add_parents_frame name parents [Declared (cls_id cls)]
                registry) as [Hkeys Hget].
    rewrite Hp in Hkeys, Hget. cbn [snd] in Hkeys, Hget.
    split.
    + rewrite keys_setitem, Hkeys. unfold OrderedDict.contains.
      destruct (OrderedDict.get r1 name) eqn:Hname; [by left|].
      right. exists name. split_and!; try done.
      rewrite <- Hkeys. by apply get_None_keys.
    + intros k c0 Hk Hne.
      rewrite get_setitem_ne by congruence.
      specialize (Hget k). by rewrite Hk in Hget.
Qed.

(** Without the component ['base'] in the registry, only ['base'] can
    be built: the build of any other component raises. *)
Theorem build_needs_base cls registry :
  OrderedDict.get registry "base" = None →
  resolved_name_spec cls ≠ Some "base" →
  ∃ e, (_build_component cls registry).1 = inl e.
Proof.
  intros Hbase Hname.
  destruct (name_in_registry cls registry) eqn:Hdup.
  { unfold _build_component. rewrite Hdup. by eexists. }
  destruct (resolved_name_spec cls) as [n|] eqn:Hn.
  2:{ rewrite build_component_nameless by done. by eexists. }
  rewrite (build_component_named cls registry n Hdup Hn).
  assert (Hnb : n ≠ "base") by congruence.
  unfold build_named.
  destruct (component_class_for _ _ _) as [e|c]; [by eexists|].
  rewrite with_base_appends, add_parents_app by done.
  destruct (add_parents n (parents_of cls) _ registry)
    as [[e|b1] r1] eqn:Hp; [by eexists|].
  destruct (add_parents_frame n (parents_of cls)
              (LastOrderedSet.of_list [Declared (cls_id cls)]) registry)
    as [_ Hget].
  specialize (Hget "base"). rewrite Hbase, Hp in Hget. cbn [snd] in Hget.
  cbn [add_parents]. rewrite Hget. by eexists.
Qed.

(** The names of a registry that the builder has filled: they are all
    different and none is empty, and each component class has the name
    under which it is registered. *)
Theorem built_registry_names registry :
  built registry →
  NoDup (OrderedDict.keys registry)
  ∧ ∀ k c, OrderedDict.get registry k = Some c → __name__ c = k ∧ k ≠ "".
Proof.
  induction 1 as [|cls registry _ [IHnd IHget]].
  { split; [apply NoDup_nil_2|done]. }
  assert (Hframe : ∀ name parents bases k c',
            OrderedDict.get (add_parents name parents bases registry).2 k
            = Some c' → __name__ c' = k ∧ k ≠ "").
  { intros name parents bases k c' Hk.
    destruct (add_parents_frame name parents bases registry) as [_ Hget].
    specialize (Hget k). rewrite Hk in Hget.
    destruct (OrderedDict.get registry k) as [c|] eqn:Hc; [|done].
    destruct Hget as (c'' & [= <-] & Hn & _).
    rewrite Hn. by apply IHget. }
  destruct (build_component_cases cls registry)
    as [[e' ->]|[(e' & name & parents & ->)
                |(name & parents & c & bases & r1 & Hne & Hc & Hp & ->)]];
    cbn [snd].
  - done.
  - split; [|by apply Hframe].
    by rewrite (proj1 (add_parents_frame _ _ _ _)).
  - pose proof (add_parents_frame name parents [Declared (cls_id cls)]
                  registry) as [Hkeys _].
    pose proof (Hframe name parents [Declared (cls_id cls)]) as Hf.
    rewrite Hp in Hkeys, Hf. cbn [snd] in Hkeys, Hf.
    split.
    + rewrite keys_setitem. unfold OrderedDict.contains.
      destruct (OrderedDict.get r1 name) eqn:Hname; rewrite Hkeys; [done|].
      apply NoDup_app. split_and!; [done| |apply NoDup_singleton].
      intros x Hx Hx'. apply list_elem_of_singleton in Hx' as ->.
      apply get_None_keys in Hname. apply Hname. by rewrite Hkeys.
    + intros k c0. destruct (decide (name = k)) as [<-|Hnk].
      * rewrite get_setitem_eq. intros [= <-]. split; [|done]. cbn.
        unfold component_class_for in Hc.
        destruct (decide (name ∈ parents)); [|by inv Hc].
        destruct (OrderedDict.get registry name) as [c1|] eqn:Hc1;
          [|done].
        injection Hc as <-. by apply IHget.
      * rewrite get_setitem_ne by done. apply Hf.
Qed.

Lemma add_parents_bases_NoDup name parents bases registry bases' registry' :
  NoDup bases → bases ≠ [] →
  add_parents name parents bases registry = (inr bases', registry') →
  NoDup bases' ∧ bases' ≠ [].
Proof.
  revert bases registry.
  induction parents as [|p ps IH]; intros bases registry Hnd Hne;
    cbn [add_parents].
  - by intros [= <- _].
  - destruct (OrderedDict.get registry p) as [pc|]; [|done].
    destruct (decide (p = name)).
    + apply IH; [by apply los_foldl_add_NoDup|by apply los_foldl_add_nonempty].
    + apply IH; [by apply los_add_NoDup|apply los_add_nonempty].
Qed.

(** The bases of a component class that the builder has built are all
    different, and there is at least one. *)
Theorem built_bases_are_distinct registry :
  built registry →
  ∀ k c,
    OrderedDict.get registry k = Some c →
    NoDup (__bases__ c) ∧ __bases__ c ≠ [].
Proof.
  induction 1 as [|cls registry _ IH]; [done|].
  assert (Hframe : ∀ name parents bases k c',
            OrderedDict.get (add_parents name parents bases registry).2 k
            = Some c' → NoDup (__bases__ c') ∧ __bases__ c' ≠ []).
  { intros name parents bases k c' Hk.
    destruct (add_parents_frame name parents bases registry) as [_ Hget].
    specialize (Hget k). rewrite Hk in Hget.
    destruct (OrderedDict.get registry k) as [c|] eqn:Hc; [|done].
    destruct Hget as (c'' & [= <-] & _ & Hb & _).
    rewrite Hb. by apply (IH k). }
  destruct (build_component_cases cls registry)
    as [[e' ->]|[(e' & name & parents & ->)
                |(name & parents & c & bases & r1 & Hne & Hc & Hp & ->)]];
    cbn [snd].
  - done.
  - apply Hframe.
  - pose proof (Hframe name parents [Declared (cls_id cls)]) as Hf.
    rewrite Hp in Hf. cbn [snd] in Hf.
    intros k c0. destruct (decide (name = k)) as [<-|Hnk].
    + rewrite get_setitem_eq. intros [= <-]. cbn.
      eapply add_parents_bases_NoDup; [| |done]; [|done].
      apply NoDup_singleton.
    + rewrite get_setitem_ne by done. apply Hf.
Qed.

Lemma add_parents_all_registered name parents bases registry :
  name ∉ parents →
  (∀ p, p ∈ parents → is_Some (OrderedDict.get registry p)) →
  ∃ registry',
    add_parents name parents bases registry
    = (inr (foldl LastOrderedSet.add bases (Composed <$> parents)), registry')
    ∧ ∀ p, p ∈ parents →
           ∃ pc, OrderedDict.get registry' p = Some pc
                 ∧ name ∈ _inherit_children pc.
Proof.
  revert bases registry.
  induction parents as [|p ps IH]; intros bases registry Hname Hreg.
  - exists registry. split; [done|]. by intros p Hp%elem_of_nil.
  - apply not_elem_of_cons in Hname as [Hne Hname].
    destruct (Hreg p) as [pc Hp]; [left|].
    cbn [add_parents fmap list_fmap foldl]. rewrite Hp.
    rewrite decide_False by done.
    set (r1 := OrderedDict.setitem registry p (add_child pc name)).
    destruct (IH (LastOrderedSet.add bases (Composed p)) r1 Hname)
      as (registry' & Hadd & Hchildren).
    { intros q Hq. unfold r1. destruct (decide (p = q)) as [->|Hpq].
      - rewrite get_setitem_eq. by eexists.
      - rewrite get_setitem_ne by done. apply Hreg. by right. }
    exists registry'. split; [done|].
    intros q Hq. apply elem_of_cons in Hq as [->|Hq]; [|by apply Hchildren].
    destruct (add_parents_frame name ps
                (LastOrderedSet.add bases (Composed p)) r1) as [_ Hget].
    specialize (Hget p). unfold r1 in Hget at 1.
    rewrite get_setitem_eq in Hget.
    destruct Hget as (c' & Hc' & _ & _ & Hsub).
    rewrite Hadd in Hc'. cbn [snd] in Hc'.
    exists c'. split; [done|]. apply Hsub, add_child_elem.
Qed.

(** The steps of the build of a new component on parents that are all
    built, up to the assignment of [__bases__]. *)
Lemma build_new_component_steps cls registry n :
  _name cls = Some n →
  n ≠ "" →
  OrderedDict.contains registry n = false →
  n ∉ parents_of cls →
  (∀ p, p ∈ with_base n (parents_of cls) →
        is_Some (OrderedDict.get registry p)) →
  ∃ registry',
    _build_component cls registry = (inr n, registry')
    ∧ OrderedDict.keys registry' = OrderedDict.keys registry ++ [n]
    ∧ OrderedDict.get registry' n
      = Some {| __name__ := n;
                __bases__ :=
                  Declared (cls_id cls)
                  :: foldl LastOrderedSet.add []
                       (Composed <$> with_base n (parents_of cls));
                _inherit_children := [] |}
    ∧ ∀ p, p ∈ with_base n (parents_of cls) →
           ∃ pc, OrderedDict.get registry' p = Some pc
                 ∧ n ∈ _inherit_children pc.
Proof.
  intros Hname Hne Hnew Hnotin Hreg.
  assert (Hdup : name_in_registry cls registry = false).
  { unfold name_in_registry. by rewrite Hname. }
  assert (Hres : resolved_name_spec cls = Some n).
  { unfold resolved_name_spec, declared_name.
    rewrite Hname. by rewrite decide_False. }
  assert (Hnotin' : n ∉ with_base n (parents_of cls)).
  { unfold with_base. destruct (decide (n ≠ "base")) as [Hb|]; [|done].
    rewrite elem_of_app, list_elem_of_singleton. by intros [?|?]. }
  rewrite (build_component_named cls registry n Hdup Hres).
  unfold build_named, component_class_for.
  rewrite decide_False by done.
  assert (Hof : LastOrderedSet.of_list [Declared (cls_id cls)]
                = [Declared (cls_id cls)]).
  { unfold LastOrderedSet.of_list. cbn [foldl]. by rewrite los_add_eq. }
  rewrite Hof.
  destruct (add_parents_all_registered n (with_base n (parents_of cls))
              [Declared (cls_id cls)] registry Hnotin' Hreg)
    as (r1 & Hadd & Hchildren).
  rewrite Hadd.
  destruct (add_parents_frame n (with_base n (parents_of cls))
              [Declared (cls_id cls)] registry) as [Hkeys Hget].
  rewrite Hadd in Hkeys, Hget. cbn [snd] in Hkeys, Hget.
  assert (Hr1 : OrderedDict.get r1 n = None).
  { specialize (Hget n). unfold OrderedDict.contains in Hnew.
    by destruct (OrderedDict.get registry n). }
  eexists. split; [done|]. split_and!.
  - rewrite keys_setitem, Hkeys. unfold OrderedDict.contains.
    by rewrite Hr1.
  - rewrite get_setitem_eq. unfold set_bases. cbn. do 2 f_equal.
    apply los_foldl_add_head.
    intros Hin. apply list_elem_of_fmap in Hin as (? & ? & _). done.
  - intros p Hp. rewrite get_setitem_ne; [by apply Hchildren|].
    intros <-. done.
Qed.

Lemma add_parents_returns_registered
    name parents bases registry bases' registry' :
  add_parents name parents bases registry = (inr bases', registry') →
  ∀ p, p ∈ parents → is_Some (OrderedDict.get registry p).
Proof.
  revert bases registry.
  induction parents as [|q ps IH]; intros bases registry Hadd p Hp.
  { by apply elem_of_nil in Hp. }
  cbn [add_parents] in Hadd.
  destruct (OrderedDict.get registry q) as [qc|] eqn:Hq; [|done].
  apply elem_of_cons in Hp as [->|Hp]; [by eexists|].
  destruct (decide (q = name)); [by eapply IH|].
  destruct (decide (q = p)) as [<-|Hne]; [by eexists|].
  rewrite <- (get_setitem_ne registry q p (add_child qc name)) by done.
  by eapply IH.
Qed.

(** A declaration of a new component, when the build returns (Python
    accepts the new bases at the assignment of [__bases__]): the name
    returned is the name declared and it comes last in the registry, the
    bases of the new component class are the class of the declaration
    and then the component classes of the parents in their order,
    ['base'] included, and each parent has the new name among its
    children. *)
Theorem build_new_component cls registry n k registry' :
  _name cls = Some n →
  n ≠ "" →
  OrderedDict.contains registry n = false →
  n ∉ parents_of cls →
  _build_component cls registry = (inr k, registry') →
  k = n
  ∧ OrderedDict.keys registry' = OrderedDict.keys registry ++ [n]
  ∧ OrderedDict.get registry' n
    = Some {| __name__ := n;
              __bases__ :=
                Declared (cls_id cls)
                :: foldl LastOrderedSet.add []
                     (Composed <$> with_base n (parents_of cls));
              _inherit_children := [] |}
  ∧ ∀ p, p ∈ with_base n (parents_of cls) →
         ∃ pc, OrderedDict.get registry' p = Some pc
               ∧ n ∈ _inherit_children pc.
Proof.
  intros Hname Hne Hnew Hnotin Hbuild.
  assert (Hreg : ∀ p, p ∈ with_base n (parents_of cls) →
                      is_Some (OrderedDict.get registry p)).
  { assert (Hdup : name_in_registry cls registry = false).
    { unfold name_in_registry. by rewrite Hname. }
    assert (Hres : resolved_name_spec cls = Some n).
    { unfold resolved_name_spec, declared_name.
      rewrite Hname. by rewrite decide_False. }
    rewrite (build_component_named cls registry n Hdup Hres) in Hbuild.
    unfold build_named in Hbuild.
    destruct (component_class_for _ _ _) as [e|c0]; [done|].
    destruct (add_parents n _ _ registry) as [[e|bases] r1] eqn:Hp;
      [done|].
    by eapply add_parents_returns_registered. }
  destruct (build_new_component_steps cls registry n
              Hname Hne Hnew Hnotin Hreg)
    as (registry'' & Hbuild' & Hkeys & Hget & Hchildren).
  rewrite Hbuild in Hbuild'. injection Hbuild' as -> ->.
  by split_and!.
Qed.

(** A build that raises for a missing parent has already recorded the
    new name as a child of the parents that come before the missing
    one. *)
Theorem failed_build_leaves_children cls registry n p q rest pc :
  name_in_registry cls registry = false →
  resolved_name_spec cls = Some n →
  parents_of cls = p :: q :: rest →
  n ∉ parents_of cls →
  p ≠ q →
  OrderedDict.get registry p = Some pc →
  OrderedDict.get registry q = None →
  _build_component cls registry
  = (inl (inherits_from_non_existing n q),
     OrderedDict.setitem registry p (add_child pc n)).
Proof.
  intros Hdup Hres Hparents Hnotin Hpq Hp Hq.
  rewrite (build_component_named cls registry n Hdup Hres).
  assert (Hnotin' : n ∉ with_base n (parents_of cls)).
  { unfold with_base. destruct (decide (n ≠ "base")) as [Hb|]; [|done].
    rewrite elem_of_app, list_elem_of_singleton. by intros [?|?]. }
  unfold build_named, component_class_for.
  rewrite decide_False by done.
  rewrite Hparents in Hnotin.
  apply not_elem_of_cons in Hnotin as [Hnp Hnotin].
  assert (Hwb : ∃ l, with_base n (parents_of cls) = p :: q :: l).
  { unfold with_base. rewrite Hparents.
    destruct (decide (n ≠ "base")); by eexists. }
  destruct Hwb as [l ->].
  cbn [add_parents]. rewrite Hp, decide_False by done.
  by rewrite get_setitem_ne, Hq.
Qed.

End MoreBuilderFacts.

(** The declaration [D1], whose second parent does not exist, fails. *)
Lemma failed_build_keeps_components_witness :
  OrderedDict.keys (Builder._build_component MoreExamples.D1
                      Examples.registry_ab).2
  = ["base"; "a"; "b"].
Proof.
  destruct (failed_build_keeps_components MoreExamples.D1
              Examples.registry_ab
              (Builder.inherits_from_non_existing "d" "missing") eq_refl)
    as [Hkeys _].
  rewrite Hkeys. reflexivity.
Defined.

(** A declaration of ['a'] on the empty registry. *)
Lemma build_needs_base_witness :
  ∃ e, (Builder._build_component Examples.A1 []).1 = inl e.
Proof.
  apply (build_needs_base Examples.A1 []); [reflexivity|discriminate].
Defined.

(** The registry with ['base'], ['a'] and ['b']. *)
Lemma built_registry_names_witness :
  NoDup (OrderedDict.keys Examples.registry_ab)
  ∧ ∀ k c, OrderedDict.get Examples.registry_ab k = Some c →
           Builder.__name__ c = k ∧ k ≠ "".
Proof.
  exact (built_registry_names Examples.registry_ab
           (Builder.built_step Examples.B1 _
              (Builder.built_step Examples.A1 _
                 (Builder.built_step Examples.Base _ Builder.built_empty)))).
Defined.

(** The component ['a'] of that registry. *)
Lemma built_bases_are_distinct_witness :
  NoDup (Builder.__bases__ Examples.composed_a)
  ∧ Builder.__bases__ Examples.composed_a ≠ [].
Proof.
  apply (built_bases_are_distinct Examples.registry_ab
           (Builder.built_step Examples.B1 _
              (Builder.built_step Examples.A1 _
                 (Builder.built_step Examples.Base _ Builder.built_empty)))
           "a" Examples.composed_a).
  reflexivity.
Defined.

(** The declaration [C1] of a new component ['c'] on ['a'] and ['b']. *)
Lemma build_new_component_witness :
  OrderedDict.keys
    (Builder._build_component MoreExamples.C1 Examples.registry_ab).2
  = ["base"; "a"; "b"; "c"]
  ∧ Builder.__bases__
    <$> OrderedDict.get
          (Builder._build_component MoreExamples.C1 Examples.registry_ab).2
          "c"
    = Some [Builder.Declared 6; Builder.Composed "a";
            Builder.Composed "b"; Builder.Composed "base"].
Proof.
  destruct (build_new_component MoreExamples.C1 Examples.registry_ab "c" "c"
              (Builder._build_component MoreExamples.C1
                 Examples.registry_ab).2)
    as (_ & Hkeys & Hget & _).
  - reflexivity.
  - discriminate.
  - reflexivity.
  - apply (bool_decide_unpack _). vm_compute. exact I.
  - reflexivity.
  - split; [by rewrite Hkeys|]. rewrite Hget. reflexivity.
Defined.

(** The declaration [D1] on ['a'] and on ['missing']. *)
Lemma failed_build_leaves_children_witness :
  Builder._inherit_children
  <$> OrderedDict.get (Builder._build_component MoreExamples.D1
                         Examples.registry_ab).2 "a"
  = Some ["d"].
Proof.
  rewrite (failed_build_leaves_children MoreExamples.D1 Examples.registry_ab
             "d" "a" "missing" [] Examples.composed_a);
    [reflexivity..| | | |]; try reflexivity.
  - apply (bool_decide_unpack _). vm_compute. exact I.
  - discriminate.
Defined.

(** The declaration [A2], which extends ['a'] with [_inherit] alone. *)
Lemma build_extends_in_place_witness :
  ∃ rest registry',
    Builder._build_component Examples.A2 Examples.registry_ab
    = (inr "a", registry')
    ∧ Builder.__bases__ <$> OrderedDict.get registry' "a"
      = Some (Builder.Declared 4 :: rest)
    ∧ ∀ b, b ∈ Builder.__bases__ Examples.composed_a → b ∈ rest.
Proof.
  eapply (build_extends_in_place Examples.A2 Examples.registry_ab "a"
            Examples.composed_a);
    [reflexivity|reflexivity|discriminate|reflexivity|reflexivity|].
  apply (bool_decide_unpack _). vm_compute. exact I.
Defined.

(** * Properties of the names of addons and of the registration *)

Section AddonFacts.
Import Addons.

Implicit Types (s a b rest : string).

Lemma split_nonempty sep s : split sep s ≠ [].
Proof.
  destruct s as [|c s]; cbn -[dot]; [done|].
  destruct (decide (c = sep)); [done|]. by destruct (split sep s).
Qed.

Lemma split_dot_free s : Forall dot_free (split dot s).
Proof.
  induction s as [|c s IH]; cbn -[dot].
  - by repeat constructor.
  - destruct (decide (c = dot)); [by constructor|].
    destruct (split dot s) as [|piece pieces].
    + by repeat constructor.
    + inv IH. by constructor.
Qed.

Lemma split_of_dot_free a : dot_free a → split dot a = [a].
Proof.
  induction a as [|c a IH]; cbn -[dot]; [done|]. intros [Hc Ha].
  rewrite decide_False by done. by rewrite IH.
Qed.

Lemma split_app a b :
  dot_free a → split dot (a +:+ String dot b) = a :: split dot b.
Proof.
  induction a as [|c a IH]; intros Ha.
  - change ("" +:+ String dot b) with (String dot b).
    cbn -[dot]. by rewrite decide_True.
  - destruct Ha as [Hc Ha].
    change (String c a +:+ String dot b)
      with (String c (a +:+ String dot b)).
    cbn -[dot]. rewrite decide_False by done. by rewrite IH.
Qed.

Lemma dot_free_default (l : list string) i :
  Forall dot_free l → dot_free (default "" (l !! i)).
Proof.
  intros Hl. destruct (l !! i) as [x|] eqn:Hx; [|done].
  cbn. eapply Forall_forall; [done|]. by eapply list_elem_of_lookup_2.
Qed.

Lemma get_addon_name_of_dot_free a :
  dot_free a → _get_addon_name a = a.
Proof.
  intros Ha. unfold _get_addon_name. rewrite split_of_dot_free by done.
  rewrite decide_False; [done|]. cbn. lia.
Qed.

(** The name of the addon has no dot, and it is its own addon name. *)
Theorem get_addon_name_has_no_dot s :
  dot_free (_get_addon_name s)
  ∧ _get_addon_name (_get_addon_name s) = _get_addon_name s.
Proof.
  assert (Hfree : dot_free (_get_addon_name s)).
  { unfold _get_addon_name.
    destruct (decide _); apply dot_free_default, split_dot_free. }
  split; [done|]. by apply get_addon_name_of_dot_free.
Qed.

Local Ltac dot_free_string :=
  vm_compute; repeat split; intros [=].

(** The addon of a Python module: for a module of the namespace
    [odoo.addons] it is the name that follows, for another module it is
    the first name. *)
Theorem get_addon_name_of_module a :
  dot_free a →
  _get_addon_name ("odoo.addons." +:+ a) = a
  ∧ (∀ rest, _get_addon_name ("odoo.addons." +:+ a +:+ "." +:+ rest) = a)
  ∧ (a ≠ "odoo" → ∀ rest, _get_addon_name (a +:+ "." +:+ rest) = a)
  ∧ _get_addon_name a = a.
Proof.
  intros Ha.
  assert (Hodoo : dot_free "odoo") by dot_free_string.
  assert (Haddons : dot_free "addons") by dot_free_string.
  split_and!.
  - unfold _get_addon_name.
    change ("odoo.addons." +:+ a)
      with ("odoo" +:+ String dot ("addons" +:+ String dot a)).
    rewrite !split_app, split_of_dot_free by done.
    rewrite decide_True; [done|]. split; [cbn; lia|done].
  - intros rest. unfold _get_addon_name.
    change ("odoo.addons." +:+ a +:+ "." +:+ rest)
      with ("odoo" +:+ String dot ("addons" +:+ String dot
                                     (a +:+ String dot rest))).
    rewrite !split_app by done.
    rewrite decide_True; [done|]. split; [cbn; lia|done].
  - intros Hne rest. unfold _get_addon_name.
    change (a +:+ "." +:+ rest) with (a +:+ String dot rest).
    rewrite split_app by done.
    rewrite decide_False; [done|].
    intros [_ Htake]. destruct (split dot rest); by inv Htake.
  - by apply get_addon_name_of_dot_free.
Qed.

End AddonFacts.

Section MetaComponentFacts.
Import MetaComponent.

Implicit Types (self : Class_) (classes : list Class_).
Implicit Types (mc : gmap string (list Class_)) (m : string).

Lemma with_module_has_module self :
  _module (with_module self) = Some (module_of self).
Proof.
  unfold module_of, with_module.
  destruct (_module self) eqn:Hm; cbn; by rewrite ?Hm.
Qed.

(** After the declaration of the classes of a file, the list of an addon
    holds what it held before and then the classes of that addon that
    are to be registered, in the order of their declaration.  A class
    with [_register = False] is in no list. *)
Theorem declare_all_by_module classes mc m :
  default [] (declare_all classes mc !! m)
  = default [] (mc !! m)
    ++ filter (λ c, _module c = Some m)
         (with_module <$> filter (λ c, _register c = true) classes).
Proof.
  revert mc. induction classes as [|self classes IH]; intros mc.
  - cbn. by rewrite app_nil_r.
  - unfold declare_all in *. cbn [foldl]. rewrite IH.
    unfold __init__. rewrite filter_cons.
    destruct (_register self) eqn:Hreg.
    + rewrite decide_True by done. cbn [negb snd].
      rewrite fmap_cons, filter_cons.
      rewrite with_module_has_module. fold (module_of self).
      destruct (decide (module_of self = m)) as [<-|Hne].
      * rewrite lookup_insert_eq. cbn [default from_option]. unfold id.
        rewrite decide_True by done. by rewrite <- app_assoc.
      * rewrite lookup_insert_ne by done.
        rewrite decide_False; [done|]. congruence.
    + rewrite decide_False by done. done.
Qed.

End MetaComponentFacts.

(** The addon [sale]. *)
Lemma get_addon_name_of_module_witness :
  Addons._get_addon_name "odoo.addons.sale" = "sale"
  ∧ (∀ rest, Addons._get_addon_name ("odoo.addons.sale." +:+ rest) = "sale")
  ∧ (∀ rest, Addons._get_addon_name ("sale." +:+ rest) = "sale")
  ∧ Addons._get_addon_name "sale" = "sale".
Proof.
  assert (Hsale : Addons.dot_free "sale")
    by (vm_compute; repeat split; intros [=]).
  destruct (get_addon_name_of_module "sale" Hsale) as (H1 & H2 & H3 & H4).
  split_and!; [exact H1|exact H2|apply H3; discriminate|exact H4].
Defined.

(** A declaration that extends a component ['x'] that is not built. *)
Lemma build_extension_of_unregistered_witness :
  Builder._build_component
    {| Builder.cls_id := 8; Builder._name := None;
       Builder._inherit := Builder.InheritStr "x" |}
    Examples.registry_ab
  = (inl (Builder.does_not_exist_in_registry "x"), Examples.registry_ab).
Proof.
  apply (build_extension_of_unregistered
           {| Builder.cls_id := 8; Builder._name := None;
              Builder._inherit := Builder.InheritStr "x" |}
           Examples.registry_ab "x");
    [reflexivity|reflexivity| |reflexivity].
  left.
Defined.
